(** * Swatch.py: colour composition and grid layout of the swatch chart

    A shallow embedding of [src/Swatch.py].  The integer part of the program
    (tint selections, medians, the step, the sweep) lives in [Z].  The part
    the program computes with Python floats is written once, over an
    interface [Number] of the arithmetic it uses, and read twice: over the
    rationals [Q] (exact arithmetic, for the statements the specification
    makes in exact arithmetic) and over IEEE 754 binary64 (the numbers
    CPython really uses, where concrete runs are evaluated and the
    saturation of [overprint_layer] is proved). *)

From Stdlib Require Import ZArith QArith Qminmax Lia Lqa Floats Uint63 Ascii.
From stdpp Require Import gmap strings list pretty.

Local Open Scope Z_scope.

(** ** The arithmetic of the program *)

(** What the source does with numbers: promote an [int], [+], [-], [*],
    true division [/], and the comparisons [<] and [==].  Promoting an
    [int] too large for a float raises [OverflowError]: [int_overflows]
    tells for which integers, and [of_int] is the float of the others. *)
Class Number (num : Type) := {
  of_int : Z -> num;
  int_overflows : Z -> bool;
  add : num -> num -> num;
  sub : num -> num -> num;
  mul : num -> num -> num;
  div : num -> num -> num;
  ltb : num -> num -> bool;
  eqb : num -> num -> bool
}.

Declare Scope num_scope.
Delimit Scope num_scope with num.
Infix "+" := add : num_scope.
Infix "-" := sub : num_scope.
Infix "*" := mul : num_scope.
Infix "/" := div : num_scope.

Definition Qltb (x y : Q) : bool := negb (Qle_bool y x).

(** The reading in exact arithmetic, for the statements that say so:
    no rounding and no overflow. *)
#[export] Instance Q_Number : Number Q := {
  of_int := inject_Z;
  int_overflows := fun _ => false;
  add := Qplus;
  sub := Qminus;
  mul := Qmult;
  div := Qdiv;
  ltb := Qltb;
  eqb := Qeq_bool
}.

(** Python's conversion of an [int] to a float: the integer rounded to the
    nearest double, ties to even.  When the rounded value is beyond the
    largest double (from [2^1024 - 2^970] on in absolute value) Python
    raises [OverflowError]; [float_of_Z] is then the infinity that
    [float_overflows] flags. *)
Definition float_of_Z (z : Z) : float :=
  SF2Prim (binary_normalize prec emax z 0 false).

Definition float_overflows (z : Z) : bool :=
  match binary_normalize prec emax z 0 false with
  | S754_infinity _ => true
  | _ => false
  end.

(** The reading on the doubles the program computes with. *)
#[export] Instance binary64_Number : Number float := {
  of_int := float_of_Z;
  int_overflows := float_overflows;
  add := PrimFloat.add;
  sub := PrimFloat.sub;
  mul := PrimFloat.mul;
  div := PrimFloat.div;
  ltb := PrimFloat.ltb;
  eqb := PrimFloat.eqb
}.

Section Core.
Context {num : Type} {N : Number num}.

(** A decimal literal [m / 10^e] of the source, such as [2.83464567]:
    the quotient of two integers that are exact in binary64, so that the
    binary64 reading is the correctly rounded literal. *)
Definition dec (m : Z) (e : nat) : num := (of_int m / of_int (10 ^ Z.of_nat e))%num.

(** [min(a, b)] of Python keeps the first argument unless the second is
    strictly smaller. *)
Definition py_min (a b : num) : num := if ltb b a then b else a.

(** A CMYK quadruple [(c, m, y, k)]. *)
Definition cmyk : Type := num * num * num * num.

(** Python's [==] on two quadruples. *)
Definition same_cmyk (p q : cmyk) : bool :=
  let '(pc, pm, py, pk) := p in
  let '(qc, qm, qy, qk) := q in
  eqb pc qc && eqb pm qm && eqb py qy && eqb pk qk.

(** *** Constants (lines 6-13) *)
Definition MM_TO_POINTS : num := dec 283464567 8.
Definition BOX_AREA_HORIZ_MARGIN_TOTAL : num := dec 198425197 6.
Definition BOX_AREA_VERT_MARGIN_TOTAL : num := dec 198425197 6.
Definition X_REF_START_OFFSET : num := dec 42519685 6.
Definition Y_REF_START_OFFSET : num := dec 42519685 6.
Definition BOX_SPACING : num := dec 113385827 7.

(** *** CMYK_DEFINITIONS (lines 16-24)

    The literals [1.0], [0.0] and [100.0] are the integers promoted. *)
Definition CMYK_DEFINITIONS : gmap string cmyk :=
  list_to_map
    [ ("Cyan",    (of_int 1, of_int 0, of_int 0, of_int 0));
      ("Magenta", (of_int 0, of_int 1, of_int 0, of_int 0));
      ("Yellow",  (of_int 0, of_int 0, of_int 1, of_int 0));
      ("Black",   (of_int 0, of_int 0, of_int 0, of_int 1));
      ("Orange",  (of_int 0, dec 7 1, dec 7 1, of_int 0));
      ("Violet",  (dec 7 1, dec 7 1, of_int 0, of_int 0));
      ("Grey",    (of_int 0, of_int 0, of_int 0, dec 7 1)) ].

(** *** overprint_layer (lines 57-79) *)
Definition overprint_layer
    (current_cmyk_percent layer_cmyk_base : cmyk) (layer_tint_percent : num) : cmyk :=
  let '(base_c, base_m, base_y, base_k) := current_cmyk_percent in
  let '(layer_def_c, layer_def_m, layer_def_y, layer_def_k) := layer_cmyk_base in
  let tint_factor := (layer_tint_percent / of_int 100)%num in
  let add_c := (layer_def_c * tint_factor * of_int 100)%num in
  let add_m := (layer_def_m * tint_factor * of_int 100)%num in
  let add_y := (layer_def_y * tint_factor * of_int 100)%num in
  let add_k := (layer_def_k * tint_factor * of_int 100)%num in
  let new_c := py_min (of_int 100) (base_c + add_c)%num in
  let new_m := py_min (of_int 100) (base_m + add_m)%num in
  let new_y := py_min (of_int 100) (base_y + add_y)%num in
  let new_k := py_min (of_int 100) (base_k + add_k)%num in
  (new_c, new_m, new_y, new_k).

(** *** Geometry of create_swatch_pdf (lines 88-89, 139-141, 199-200) *)

(** The product of lines 88-89 for a size in millimetres that converts to
    a float. *)
Definition docpts (docmm : Z) : num := (of_int docmm * MM_TO_POINTS)%num.

(** Lines 88-89 with their error: a size too large for a float raises
    [OverflowError] ([None]) before anything is asked or drawn. *)
Definition page_points (docmm : Z) : option num :=
  if int_overflows docmm then None else Some (docpts docmm).

Definition box_width (docwidthpts : num) : num :=
  ((docwidthpts - BOX_AREA_HORIZ_MARGIN_TOTAL) / of_int 11)%num.
Definition box_height (docheightpts : num) : num :=
  ((docheightpts - BOX_AREA_VERT_MARGIN_TOTAL) / of_int 11)%num.

Definition box_x_bl (docwidthpts : num) (i_col : Z) : num :=
  (X_REF_START_OFFSET + of_int i_col * (box_width docwidthpts + BOX_SPACING))%num.
Definition box_y_bl (docheightpts : num) (k_row : Z) : num :=
  (Y_REF_START_OFFSET + of_int k_row * (box_height docheightpts + BOX_SPACING))%num.

End Core.

Arguments cmyk num : clear implicits.

(** ** Channel selection (lines 93-123) *)

(** What [get_colour_input] returns: ['v'] or an integer tint. *)
Inductive tint_input : Type :=
  | V
  | Tint (n : Z).

#[export] Instance tint_input_eq_dec : EqDecision tint_input.
Proof. solve_decision. Defined.

(** An entry [{"value": ..., "median": ...}] of [colour_inputs]. *)
Record colour_input : Type := { value : tint_input; median : Z }.

(** An entry [{"name": ..., "median_tint": ..., "start_val": ...}] of
    [variable_colours_data]. *)
Record var_col : Type := { name : string; median_tint : Z; start_val : Z }.

Definition colour_order : list string :=
  ["Cyan"; "Magenta"; "Yellow"; "Black"; "Orange"; "Violet"; "Grey"].

Section Selection.
(** The user, as the two prompts see them: the validated answer of
    [get_colour_input] for a colour, and the validated answer of
    [get_int_input] to the median prompt of a colour.  Each prompt is
    asked at most once per colour. *)
Variable get_colour_input : string -> tint_input.
Variable get_median_input : string -> Z.

(** One turn of the loop of lines 101-123. *)
Definition select_colour
    (st : gmap string colour_input * list var_col) (colour_name : string)
    : gmap string colour_input * list var_col :=
  let '(colour_inputs, variable_colours_data) := st in
  let tint_input := get_colour_input colour_name in
  let colour_inputs :=
    <[colour_name := {| value := tint_input; median := 0 |}]> colour_inputs in
  match tint_input with
  | V =>
    if (length variable_colours_data <? 2)%nat then
      let median_tint := get_median_input colour_name in
      (alter (fun e => {| value := value e; median := median_tint |})
             colour_name colour_inputs,
       variable_colours_data ++
         [ {| name := colour_name; median_tint := median_tint; start_val := 0 |} ])
    else
      (alter (fun e => {| value := Tint 0; median := median e |})
             colour_name colour_inputs,
       variable_colours_data)
  | Tint _ => (colour_inputs, variable_colours_data)
  end.

Definition select_colours : gmap string colour_input * list var_col :=
  foldl select_colour (∅, []) colour_order.

(** The channels the user marked ['v'], in selection order. *)
Definition marked_variable : list string :=
  filter (fun colour_name => get_colour_input colour_name = V) colour_order.
End Selection.

(** ** Sweep start values (lines 125-137) *)

(** The body of the loop of lines 128-137 for one variable channel: two
    independent [if]s, the second overriding the first. *)
Definition sweep_start (median step_val : Z) : Z :=
  let start_val := median - step_val * 5 in
  let start_val :=
    if step_val * 5 + median >? 100 then 100 - step_val * 10 else start_val in
  let start_val :=
    if median - step_val * 5 <? 0 then 0 else start_val in
  start_val.

Definition calculate_start_values (step_val : Z) (variable_colours_data : list var_col)
    : list var_col :=
  (fun var_col_data =>
     {| name := name var_col_data;
        median_tint := median_tint var_col_data;
        start_val := sweep_start (median_tint var_col_data) step_val |})
    <$> variable_colours_data.

(** The precedence rule as section 4.3 of the specification words it. *)
Definition spec_start (M S : Z) : Z :=
  if M + 5 * S >? 100 then 100 - 10 * S
  else if M - 5 * S <? 0 then 0
  else M - 5 * S.

(** The tint of step [i] of a sweep, clamped on access (lines 175, 184,
    240, 266, 320): [max(0, min(100, start_val + i * step_val))]. *)
Definition clamped_tint (start_val step_val i : Z) : Z :=
  Z.max 0 (Z.min 100 (start_val + i * step_val)).

(** ** Cell composition and drawing (lines 143-202, 261-337) *)

Section Rendering.
Context {num : Type} {N : Number num}.

(** The drawing calls the program makes on the canvas. *)
Inductive command : Type :=
  | SetFillColor (c m y k : num)
  | Rect (x y width height : num)
  | SetFont (psfontname : string) (size : Z)
  | DrawRightString (x y : num) (text : string).

(** The branch of lines 156-159 taken for [colour_name]: the component of
    that process colour is raised directly. *)
Definition add_process_tint (colour_name : string) (current_cell_cmyk_percent : cmyk num)
    (tint_val : num) : cmyk num :=
  let '(c0, c1, c2, c3) := current_cell_cmyk_percent in
  if String.eqb colour_name "Cyan" then (py_min (of_int 100) (c0 + tint_val)%num, c1, c2, c3)
  else if String.eqb colour_name "Magenta" then (c0, py_min (of_int 100) (c1 + tint_val)%num, c2, c3)
  else if String.eqb colour_name "Yellow" then (c0, c1, py_min (of_int 100) (c2 + tint_val)%num, c3)
  else if String.eqb colour_name "Black" then (c0, c1, c2, py_min (of_int 100) (c3 + tint_val)%num)
  else current_cell_cmyk_percent.

(** Layer 1, one turn of the loop of lines 151-159.  A missing key of
    [colour_inputs] is the [KeyError] of the source: [None]. *)
Definition process_layer (colour_inputs : gmap string colour_input)
    (current_cell_cmyk_percent : cmyk num) (colour_name : string) : option (cmyk num) :=
  e ← colour_inputs !! colour_name;
  match value e with
  | V => Some current_cell_cmyk_percent
  | Tint tint_val =>
    if tint_val >? 0
    then Some (add_process_tint colour_name current_cell_cmyk_percent (of_int tint_val))
    else Some current_cell_cmyk_percent
  end.

(** Layers 2-4, one turn of the loop of lines 162-167. *)
Definition spot_layer (colour_inputs : gmap string colour_input)
    (current_cell_cmyk_percent : cmyk num) (spot_colour_name : string) : option (cmyk num) :=
  e ← colour_inputs !! spot_colour_name;
  match value e with
  | V => Some current_cell_cmyk_percent
  | Tint tint_val =>
    if tint_val >? 0
    then layer_cmyk_def ← CMYK_DEFINITIONS !! spot_colour_name;
         Some (overprint_layer current_cell_cmyk_percent layer_cmyk_def (of_int tint_val))
    else Some current_cell_cmyk_percent
  end.

(** Layers 5 and 6 (lines 170-176 and 179-185): the variable colour at
    position [axis] of [variable_colours_data], when there is one, swept
    along the column (axis 0) or the row (axis 1) index [pos]. *)
Definition variable_layer (variable_colours_data : list var_col) (axis : nat)
    (step_val pos : Z) (current_cell_cmyk_percent : cmyk num) : option (cmyk num) :=
  match variable_colours_data !! axis with
  | None => Some current_cell_cmyk_percent
  | Some var_col_data =>
    var_col_cmyk_def ← CMYK_DEFINITIONS !! name var_col_data;
    let current_tint_var := clamped_tint (start_val var_col_data) step_val pos in
    Some (overprint_layer current_cell_cmyk_percent var_col_cmyk_def (of_int current_tint_var))
  end.

(** A loop whose body may raise. *)
Fixpoint foldlM {A B : Type} (f : A -> B -> option A) (a : A) (l : list B) : option A :=
  match l with
  | [] => Some a
  | b :: l' => a' ← f a b; foldlM f a' l'
  end.

(** The colour of the cell at row [k_row], column [i_col] (lines 147-185),
    in percent. *)
Definition cell_cmyk (colour_inputs : gmap string colour_input)
    (variable_colours_data : list var_col) (step_val k_row i_col : Z) : option (cmyk num) :=
  let current_cell_cmyk_percent := (of_int 0, of_int 0, of_int 0, of_int 0) in
  current_cell_cmyk_percent ←
    foldlM (process_layer colour_inputs) current_cell_cmyk_percent
           ["Cyan"; "Magenta"; "Yellow"; "Black"];
  current_cell_cmyk_percent ←
    foldlM (spot_layer colour_inputs) current_cell_cmyk_percent
           ["Orange"; "Violet"; "Grey"];
  current_cell_cmyk_percent ←
    variable_layer variable_colours_data 0 step_val i_col current_cell_cmyk_percent;
  variable_layer variable_colours_data 1 step_val k_row current_cell_cmyk_percent.

(** The body of the two grid loops (lines 147-202): the fill colour scaled
    to [0,1] and the rectangle of the cell. *)
Definition draw_cell (docwidthpts docheightpts : num)
    (colour_inputs : gmap string colour_input) (variable_colours_data : list var_col)
    (step_val k_row i_col : Z) : option (list command) :=
  '(c0, c1, c2, c3) ← cell_cmyk colour_inputs variable_colours_data step_val k_row i_col;
  let final_c := (c0 / of_int 100)%num in
  let final_m := (c1 / of_int 100)%num in
  let final_y := (c2 / of_int 100)%num in
  let final_k := (c3 / of_int 100)%num in
  Some [ SetFillColor final_c final_m final_y final_k;
         Rect (box_x_bl docwidthpts i_col) (box_y_bl docheightpts k_row)
              (box_width docwidthpts) (box_height docheightpts) ].

(** The grid (lines 144-202): rows outermost, both indices over [range(11)]. *)
Definition draw_grid (docwidthpts docheightpts : num)
    (colour_inputs : gmap string colour_input) (variable_colours_data : list var_col)
    (step_val : Z) : option (list command) :=
  rows ← mapM (fun k_row =>
                 cells ← mapM (draw_cell docwidthpts docheightpts colour_inputs
                                         variable_colours_data step_val k_row)
                              (seqZ 0 11);
                 Some (concat cells))
              (seqZ 0 11);
  Some (concat rows).

(** The baseline the program gives the value label of row [k_row] of the
    second axis (lines 264, 316, 332-333, 337). *)
Definition y_label_baseline (docheightpts : num) (k_row : Z) : num :=
  let js_y_text_top_start := dec 52519685 6 in
  let font_size_approx := of_int 8 in
  let y_top_for_this_label :=
    (js_y_text_top_start + of_int k_row * (box_height docheightpts + BOX_SPACING))%num in
  let final_y_rl := (docheightpts - y_top_for_this_label)%num in
  (final_y_rl - font_size_approx / of_int 2)%num.

(** The baseline lines 312-317 compute and never use. *)
Definition text_y_rl_centered (docheightpts : num) (k_row : Z) : num :=
  let js_y_text_top_start := dec 52519685 6 in
  let y_coord_for_label_js_top :=
    (js_y_text_top_start + of_int (10 - k_row) * (box_height docheightpts + BOX_SPACING))%num in
  let font_size_approx := of_int 8 in
  (docheightpts - y_coord_for_label_js_top - font_size_approx / of_int 2)%num.

(** The value labels of the second axis (lines 247, 250-252, 261-337);
    [str(int(round(v)))] of an integer [v] is its decimal writing. *)
Definition draw_y_axis_values (docheightpts : num)
    (variable_colours_data : list var_col) (step_val : Z) : list command :=
  let label_x_y_values := dec 22519685 6 in
  match variable_colours_data !! 1%nat with
  | None => []
  | Some var_col2_data =>
    let start_val_y_axis := start_val var_col2_data in
    k_row ← seqZ 0 11;
    let current_label_val_for_row := clamped_tint start_val_y_axis step_val k_row in
    [ SetFont "Helvetica" 8;
      DrawRightString label_x_y_values (y_label_baseline docheightpts k_row)
                      (pretty current_label_val_for_row) ]
  end.

End Rendering.

Arguments command : clear implicits.

(** ** The run up to the grid and the second-axis labels *)

Section Run.
Context {num : Type} {N : Number num}.
Variable get_colour_input : string -> tint_input.
Variable get_median_input : string -> Z.
Variables docwidthmm docheightmm step_val : Z.

(** [colour_inputs] and [variable_colours_data] as they stand at line 138. *)
Definition planned_inputs : gmap string colour_input * list var_col :=
  let '(colour_inputs, variable_colours_data) :=
    select_colours get_colour_input get_median_input in
  (colour_inputs, calculate_start_values step_val variable_colours_data).

(** Lines 85-202: the page size in points, then the grid.  [None] is an
    exception: [OverflowError] of lines 88-89, [KeyError] of a lookup. *)
Definition swatch_grid : option (list (command num)) :=
  docwidthpts ← page_points docwidthmm;
  docheightpts ← page_points docheightmm;
  draw_grid docwidthpts docheightpts planned_inputs.1 planned_inputs.2 step_val.

(** Lines 250-337, for a page height that lines 88-89 have converted. *)
Definition swatch_y_axis_values : list (command num) :=
  draw_y_axis_values (docpts docheightmm) planned_inputs.2 step_val.
End Run.

(** ** Statements' vocabulary *)

(** Every component of a quadruple lies in [[lo, hi]]. *)
Definition within (lo hi : Q) (p : cmyk Q) : Prop :=
  let '(c, m, y, k) := p in
  (lo <= c <= hi /\ lo <= m <= hi /\ lo <= y <= hi /\ lo <= k <= hi)%Q.

(** Every component of a quadruple of doubles lies in [[lo, hi]], by the
    comparison [<=] of floats (which no NaN passes). *)
Definition within_binary64 (lo hi : float) (p : cmyk float) : Prop :=
  let '(c, m, y, k) := p in
  ((lo <=? c)%float = true /\ (c <=? hi)%float = true) /\
  ((lo <=? m)%float = true /\ (m <=? hi)%float = true) /\
  ((lo <=? y)%float = true /\ (y <=? hi)%float = true) /\
  ((lo <=? k)%float = true /\ (k <=? hi)%float = true).

(** A double, as its specification sees it, that is zero or above. *)
Definition sf_nonneg (f : spec_float) : Prop :=
  match f with
  | S754_zero _ | S754_finite false _ _ | S754_infinity false => True
  | _ => False
  end.

(** A double that is not below zero: zero, above zero, or not a number. *)
Definition sf_not_negative (f : spec_float) : Prop :=
  match f with
  | S754_finite true _ _ | S754_infinity true => False
  | _ => True
  end.

(** Every component of a quadruple is at least [lo]. *)
Definition at_least (lo : Q) (p : cmyk Q) : Prop :=
  let '(c, m, y, k) := p in (lo <= c /\ lo <= m /\ lo <= y /\ lo <= k)%Q.

(** Two quadruples with equal components. *)
Definition cmyk_equiv (p q : cmyk Q) : Prop :=
  let '(pc, pm, py, pk) := p in
  let '(qc, qm, qy, qk) := q in
  (pc == qc /\ pm == qm /\ py == qy /\ pk == qk)%Q.

(** A stack of layers [(base, tint)] overprinted in order. *)
Definition overprint_layers (current : cmyk Q) (layers : list (cmyk Q * Q)) : cmyk Q :=
  foldl (fun q layer => overprint_layer q layer.1 layer.2) current layers.

(** A layer with a non-negative base and a non-negative tint. *)
Definition nonneg_layer (layer : cmyk Q * Q) : Prop :=
  at_least 0 layer.1 /\ (0 <= layer.2)%Q.

(** The rectangles among the drawing calls, as [(x, y, width, height)]. *)
Definition rectangles {num : Type} (cmds : list (command num))
    : list (num * num * num * num) :=
  cmd ← cmds;
  match cmd with
  | Rect x y width height => [(x, y, width, height)]
  | _ => []
  end.

(** The two drawing calls of a cell once its colour [q] is known. *)
Definition painted_cell {num : Type} {N : Number num} (docwidthpts docheightpts : num)
    (q : cmyk num) (k_row i_col : Z) : list (command num) :=
  [ SetFillColor (q.1.1.1 / of_int 100)%num (q.1.1.2 / of_int 100)%num
                 (q.1.2 / of_int 100)%num (q.2 / of_int 100)%num;
    Rect (box_x_bl docwidthpts i_col) (box_y_bl docheightpts k_row)
         (box_width docwidthpts) (box_height docheightpts) ].

(** The run in which the user accepts every default: the colour defaults
    of lines 102-106, and the median defaults of lines 114-116 as they come
    out when Cyan is the first variable colour and Black the second. *)
Definition default_colour_input (colour_name : string) : tint_input :=
  if String.eqb colour_name "Yellow" then Tint 30
  else if String.eqb colour_name "Cyan" then V
  else if String.eqb colour_name "Black" then V
  else Tint 0.

Definition default_median_input (colour_name : string) : Z :=
  if String.eqb colour_name "Cyan" then 65
  else if String.eqb colour_name "Black" then 85
  else 50.

(** The rectangle of the cell at row [k_row] and column [i_col]. *)
Definition cell_rectangle {num : Type} {N : Number num} (docwidthpts docheightpts : num)
    (k_row i_col : Z) : num * num * num * num :=
  (box_x_bl docwidthpts i_col, box_y_bl docheightpts k_row,
   box_width docwidthpts, box_height docheightpts).

(** [x <= 0], with the comparisons of the program's numbers. *)
Definition at_most_zero {num : Type} {N : Number num} (x : num) : Prop :=
  ltb x (of_int 0) || eqb x (of_int 0) = true.

(** The geometry degeneracy of section 6: a page, given in millimetres,
    whose box width or box height is at most zero. *)
Definition degenerate_page {num : Type} {N : Number num}
    (docwidthmm docheightmm : Z) : Prop :=
  at_most_zero (box_width (docpts (num:=num) docwidthmm)) \/
  at_most_zero (box_height (docpts (num:=num) docheightmm)).

(** A rectangle whose width or height is at most zero. *)
Definition degenerate_rectangle {num : Type} {N : Number num}
    (rect : num * num * num * num) : Prop :=
  let '(_, _, width, height) := rect in
  at_most_zero width \/ at_most_zero height.

(** Every rectangle of a list is of negative width and negative height. *)
Definition all_negative_size (rects : list (Q * Q * Q * Q)) : bool :=
  forallb (fun '(_, _, width, height) => Qltb width 0 && Qltb height 0) rects.

(** The defaults, with Orange answered ['v'] as well. *)
Definition orange_too_colour_input (colour_name : string) : tint_input :=
  if String.eqb colour_name "Orange" then V else default_colour_input colour_name.

(** ** The prompts (lines 26-55) and the input stage (lines 84-137)

    The console is the lines still to be read and the texts written so
    far.  [input(prompt)] writes the prompt and takes the next line; with
    no line left it raises [EOFError], which no function of the program
    catches: [None]. *)

Section Prompts.
(** Python's [int(str)]; [None] is its [ValueError]. *)
Variable py_int : string -> option Z.

(** get_int_input (lines 26-40).  An empty answer stands for the default;
    a rejected answer is reported and the prompt is repeated. *)
Fixpoint get_int_input (prompt_text default_val_str : string) (min_val max_val : option Z)
    (lines out : list string) : option (Z * list string * list string) :=
  match lines with
  | [] => None
  | line :: lines =>
    let out := out ++ [prompt_text +:+ " (default: " +:+ default_val_str +:+ "): "] in
    let val_str := if String.eqb line "" then default_val_str else line in
    let again := get_int_input prompt_text default_val_str min_val max_val lines in
    match py_int val_str with
    | None => again (out ++ ["Invalid input. Please enter a whole number."])
    | Some val_int =>
      let check_max :=
        match max_val with
        | Some hi =>
          if val_int >? hi
          then again (out ++ ["Value must be no more than " +:+ pretty hi +:+ "."])
          else Some (val_int, lines, out)
        | None => Some (val_int, lines, out)
        end in
      match min_val with
      | Some lo =>
        if val_int <? lo
        then again (out ++ ["Value must be at least " +:+ pretty lo +:+ "."])
        else check_max
      | None => check_max
      end
    end
  end.

(** get_colour_input (lines 42-55).  [val_str.lower() == 'v'] holds for
    the two strings [v] and [V] only. *)
Fixpoint get_colour_input (colour_name default_tint_str : string)
    (lines out : list string) : option (tint_input * list string * list string) :=
  match lines with
  | [] => None
  | line :: lines =>
    let out :=
      out ++ ["Please enter % of " +:+ colour_name
              +:+ " (0-100), or 'v' if variable (default: " +:+ default_tint_str +:+ "): "] in
    let val_str := if String.eqb line "" then default_tint_str else line in
    if String.eqb val_str "v" || String.eqb val_str "V" then Some (V, lines, out)
    else
      match py_int val_str with
      | Some val_int =>
        if (0 <=? val_int) && (val_int <=? 100)
        then Some (Tint val_int, lines, out)
        else get_colour_input colour_name default_tint_str lines
               (out ++ ["Percentage must be between 0 and 100."])
      | None =>
        get_colour_input colour_name default_tint_str lines
          (out ++ ["Invalid input. Please enter a number or 'v'."])
      end
  end.

(** The defaults of the colour prompt (lines 102-106). *)
Definition colour_default (colour_name : string) : string :=
  let default_val := "0" in
  let default_val := if String.eqb colour_name "Yellow" then "30" else default_val in
  let default_val := if String.eqb colour_name "Cyan" then "v" else default_val in
  let default_val := if String.eqb colour_name "Black" then "v" else default_val in
  default_val.

(** The default of the median prompt (lines 114-116). *)
Definition median_default (variable_colours_data : list var_col) (colour_name : string)
    : string :=
  let median_default := "50" in
  let median_default :=
    if (length variable_colours_data =? 0)%nat && String.eqb colour_name "Cyan"
    then "65" else median_default in
  let median_default :=
    if (length variable_colours_data =? 1)%nat && String.eqb colour_name "Black"
    then "85" else median_default in
  median_default.

(** One turn of the loop of lines 101-123, prompts included. *)
Definition ask_colour
    (st : gmap string colour_input * list var_col * list string * list string)
    (colour_name : string)
    : option (gmap string colour_input * list var_col * list string * list string) :=
  let '(colour_inputs, variable_colours_data, lines, out) := st in
  '(tint_input, lines, out) ←
    get_colour_input colour_name (colour_default colour_name) lines out;
  let colour_inputs :=
    <[colour_name := {| value := tint_input; median := 0 |}]> colour_inputs in
  match tint_input with
  | V =>
    if (length variable_colours_data <? 2)%nat then
      '(median_tint, lines, out) ←
        get_int_input
          (colour_name +:+ " will be variable. Enter median % for " +:+ colour_name)
          (median_default variable_colours_data colour_name) (Some 0) (Some 100) lines out;
      Some (alter (fun e => {| value := value e; median := median_tint |})
                  colour_name colour_inputs,
            variable_colours_data ++
              [ {| name := colour_name; median_tint := median_tint; start_val := 0 |} ],
            lines, out)
    else
      Some (alter (fun e => {| value := Tint 0; median := median e |})
                  colour_name colour_inputs,
            variable_colours_data, lines,
            out ++ ["Already selected 2 variable colours. Treating "
                    +:+ colour_name +:+ " as 0%."])
  | Tint _ => Some (colour_inputs, variable_colours_data, lines, out)
  end.

(** What the program has read and planned when it starts to draw. *)
Record inputs : Type := {
  in_docwidthmm : Z;
  in_docheightmm : Z;
  in_colour_inputs : gmap string colour_input;
  in_variable_colours_data : list var_col;
  in_step_val : Z
}.

(** The input stage of create_swatch_pdf (lines 84-137): page size,
    colours, step, start values. *)
Definition read_inputs (lines out : list string)
    : option (inputs * list string * list string) :=
  let out := out ++ ["--- Document Setup ---"] in
  '(docwidthmm, lines, out) ←
    get_int_input "Please enter document width in millimeters" "444" None None lines out;
  '(docheightmm, lines, out) ←
    get_int_input "Please enter document height in millimeters" "316" None None lines out;
  let out := out ++ [String "010"%char "--- Colour Percentages ---"] in
  let out :=
    out ++ ["Please enter the percentage of each colour, or 'v' if the colour will be variable (only 2 may be selected)"] in
  '(colour_inputs, variable_colours_data, lines, out) ←
    foldlM ask_colour (∅, [], lines, out) colour_order;
  '(step_val, lines, out) ←
    get_int_input
      (String "010"%char "Please enter a number between 1 and 9 for the % gap between swatches")
      "3" (Some 1) (Some 9) lines out;
  Some ({| in_docwidthmm := docwidthmm;
           in_docheightmm := docheightmm;
           in_colour_inputs := colour_inputs;
           in_variable_colours_data :=
             calculate_start_values step_val variable_colours_data;
           in_step_val := step_val |},
        lines, out).
End Prompts.

(** [int(str)] on plain decimal numerals, an optional sign first.  Python
    reads more (blanks around, underscores between digits); on the
    numerals below the two agree. *)
Definition digit_value (a : ascii) : option Z :=
  let n := Z.of_nat (nat_of_ascii a) in
  if (48 <=? n) && (n <=? 57) then Some (n - 48) else None.

Fixpoint digits_value (acc : Z) (s : string) : option Z :=
  match s with
  | EmptyString => Some acc
  | String a s' => d ← digit_value a; digits_value (10 * acc + d) s'
  end.

Definition decimal_int (s : string) : option Z :=
  match s with
  | EmptyString => None
  | String a s' =>
    if Ascii.eqb a "-"%char then
      (if String.eqb s' "" then None else Z.opp <$> digits_value 0 s')
    else if Ascii.eqb a "+"%char then
      (if String.eqb s' "" then None else digits_value 0 s')
    else digits_value 0 s
  end.

(** ** Title and first-axis labels (lines 204-243) *)

(** [val != 'v' and val > 0] for the value of an entry. *)
Definition positive_fixed (e : colour_input) : bool :=
  match value e with
  | V => false
  | Tint val => val >? 0
  end.

(** The condition of lines 207-209; [or] looks a later colour up only
    when the earlier ones are not positive. *)
Definition any_spot_fixed (colour_inputs : gmap string colour_input) : option bool :=
  orange ← colour_inputs !! "Orange";
  if positive_fixed orange then Some true
  else
    violet ← colour_inputs !! "Violet";
    if positive_fixed violet then Some true
    else
      grey ← colour_inputs !! "Grey";
      Some (positive_fixed grey).

(** One turn of the loop of lines 213-216. *)
Definition title_entry (colour_inputs : gmap string colour_input)
    (full_title name : string) : option string :=
  e ← colour_inputs !! name;
  match value e with
  | V => Some full_title
  | Tint val =>
    if val >? 0
    then Some (full_title +:+ " " +:+ name +:+ "=" +:+ pretty val +:+ "%")
    else Some full_title
  end.

(** [full_title] as it stands after line 216, from the answer to the
    title prompt of line 205. *)
Definition full_title (colour_inputs : gmap string colour_input) (answer : string)
    : option string :=
  let title_str := if String.eqb answer "" then "Swatch Chart" else answer in
  vog ← any_spot_fixed colour_inputs;
  let full_title := "" in
  let full_title := if vog : bool then full_title +:+ "VOG " else full_title in
  let full_title := full_title +:+ title_str in
  foldlM (title_entry colour_inputs) full_title colour_order.

(** The [drawCentredString] calls of lines 231-243, as [(x, y, text)]: the
    name of the first variable colour, then its eleven values. *)
Definition draw_x_axis {num : Type} {N : Number num} (docwidthpts docheightpts : num)
    (variable_colours_data : list var_col) (step_val : Z) : list (num * num * string) :=
  let label_y_x_values := (docheightpts - of_int 42)%num in
  let label_y_x_name := (docheightpts - of_int 27)%num in
  match variable_colours_data !! 0%nat with
  | None => []
  | Some var_col1_data =>
    let start_val_x_axis := start_val var_col1_data in
    ((docwidthpts / of_int 2)%num, label_y_x_name, name var_col1_data) ::
    (i_col ← seqZ 0 11;
     let label_val := clamped_tint start_val_x_axis step_val i_col in
     let text_x :=
       (X_REF_START_OFFSET + of_int i_col * (box_width docwidthpts + BOX_SPACING)
        + box_width docwidthpts / of_int 2)%num in
     [(text_x, label_y_x_values, pretty label_val)])
  end.

(** ** More vocabulary *)

(** An answer [get_colour_input] can return. *)
Definition valid_tint_input (t : tint_input) : Prop :=
  match t with
  | V => True
  | Tint n => 0 <= n <= 100
  end.

(** The value [get_int_input] takes from one line, when it accepts it. *)
Definition accepted_int (py_int : string -> option Z) (default_val_str : string)
    (min_val max_val : option Z) (line : string) : option Z :=
  val_int ← py_int (if String.eqb line "" then default_val_str else line);
  if from_option (Z.ltb val_int) false min_val || from_option (Z.gtb val_int) false max_val
  then None else Some val_int.

(** The answer [get_colour_input] takes from one line, when it accepts it. *)
Definition accepted_colour (py_int : string -> option Z) (default_tint_str line : string)
    : option tint_input :=
  let val_str := if String.eqb line "" then default_tint_str else line in
  if String.eqb val_str "v" || String.eqb val_str "V" then Some V
  else
    val_int ← py_int val_str;
    if (0 <=? val_int) && (val_int <=? 100) then Some (Tint val_int) else None.

(** Componentwise order of quadruples. *)
Definition cmyk_le (p q : cmyk Q) : Prop :=
  let '(pc, pm, py, pk) := p in
  let '(qc, qm, qy, qk) := q in
  (pc <= qc /\ pm <= qm /\ py <= qy /\ pk <= qk)%Q.

(** A quadruple with every component capped at 100. *)
Definition capped (p : cmyk Q) : cmyk Q :=
  let '(c, m, y, k) := p in (Qmin 100 c, Qmin 100 m, Qmin 100 y, Qmin 100 k).

(** What the title shows of an answer: its tint when fixed and positive. *)
Definition shown_tint (t : tint_input) : option Z :=
  match t with
  | V => None
  | Tint n => if n >? 0 then Some n else None
  end.

(** The title grown by the entries of a list of colours, from the answers. *)
Definition title_entries (get_colour_input : string -> tint_input) (start : string)
    (names : list string) : string :=
  foldl (fun t name =>
           match shown_tint (get_colour_input name) with
           | Some n => t +:+ " " +:+ name +:+ "=" +:+ pretty n +:+ "%"
           | None => t
           end) start names.

(** Whether one of Orange, Violet and Grey was answered a positive tint. *)
Definition spot_shown (get_colour_input : string -> tint_input) : bool :=
  existsb (fun name => match shown_tint (get_colour_input name) with
                       | Some _ => true
                       | None => false
                       end) ["Orange"; "Violet"; "Grey"].

(** * Exact arithmetic: the program read over the rationals *)

Lemma Qltb_lt (x y : Q) : Qltb x y = true <-> (x < y)%Q.
Proof.
  unfold Qltb. rewrite negb_true_iff, <- not_true_iff_false, Qle_bool_iff.
  split; [apply Qnot_le_lt | apply Qlt_not_le].
Qed.

Lemma Qltb_ge (x y : Q) : Qltb x y = false <-> (y <= x)%Q.
Proof.
  unfold Qltb. rewrite negb_false_iff. apply Qle_bool_iff.
Qed.

(** [min(a, b)] over the rationals, by cases. *)
Lemma py_min_cases (a b : Q) :
  ((b < a)%Q /\ py_min a b = b) \/ ((a <= b)%Q /\ py_min a b = a).
Proof.
  unfold py_min; simpl. destruct (Qltb b a) eqn:E.
  - left. split; [by apply Qltb_lt | done].
  - right. split; [by apply Qltb_ge | done].
Qed.

Lemma py_min_Qmin (a b : Q) : (py_min a b == Qmin a b)%Q.
Proof.
  destruct (py_min_cases a b) as [[H ->]|[H ->]].
  - symmetry. apply Q.min_r. by apply Qlt_le_weak.
  - symmetry. by apply Q.min_l.
Qed.

(** What a layer adds to one component is its share of the tint. *)
Lemma layer_share (b t : Q) : (b * (t / inject_Z 100) * inject_Z 100 == b * t)%Q.
Proof. unfold inject_Z. field. Qed.

Lemma overprint_layer_components (c0 c1 c2 c3 b0 b1 b2 b3 t : Q) :
  overprint_layer (c0, c1, c2, c3) (b0, b1, b2, b3) t =
  (py_min (inject_Z 100) (c0 + b0 * (t / inject_Z 100) * inject_Z 100)%Q,
   py_min (inject_Z 100) (c1 + b1 * (t / inject_Z 100) * inject_Z 100)%Q,
   py_min (inject_Z 100) (c2 + b2 * (t / inject_Z 100) * inject_Z 100)%Q,
   py_min (inject_Z 100) (c3 + b3 * (t / inject_Z 100) * inject_Z 100)%Q).
Proof. reflexivity. Qed.

(** One component of [overprint_layer]: a saturating addition. *)
Lemma saturating_add_range (c b t : Q) :
  (0 <= c)%Q -> (0 <= b)%Q -> (0 <= t)%Q ->
  (0 <= py_min (inject_Z 100) (c + b * (t / inject_Z 100) * inject_Z 100) <= 100)%Q.
Proof.
  intros Hc Hb Ht.
  pose proof (Qmult_le_0_compat b t Hb Ht) as Hbt.
  rewrite <- (layer_share b t) in Hbt.
  destruct (py_min_cases (inject_Z 100) (c + b * (t / inject_Z 100) * inject_Z 100)%Q)
    as [[H ->]|[H ->]]; unfold inject_Z in *; lra.
Qed.

(** Saturation in exact arithmetic. *)
Lemma overprint_layer_saturates_exact (current base : cmyk Q) (tint : Q) :
  within 0 100 current -> within 0 1 base -> (0 <= tint <= 100)%Q ->
  within 0 100 (overprint_layer current base tint).
Proof.
  destruct current as [[[c0 c1] c2] c3], base as [[[b0 b1] b2] b3].
  intros (H0 & H1 & H2 & H3) (B0 & B1 & B2 & B3) Ht.
  rewrite overprint_layer_components. unfold within.
  repeat split; apply saturating_add_range; lra.
Qed.

(** ** Saturation on the doubles of the program

    The bounds follow from the signs alone: a quotient, a product and a sum
    of doubles that are not below zero is not below zero (or is not a
    number), and [min(100, x)] returns [x] only when [x < 100] holds. *)

Lemma sf_nonneg_not_negative (f : spec_float) : sf_nonneg f -> sf_not_negative f.
Proof. destruct f as [s|s| |s m e]; try destruct s; simpl; tauto. Qed.

Lemma SFleb_zero_nonneg (f : spec_float) :
  SFleb (S754_zero false) f = true -> sf_nonneg f.
Proof.
  destruct f as [s|s| |s m e]; try destruct s; simpl; (discriminate || trivial).
Qed.

Lemma sf_not_negative_leb_zero (f g : spec_float) :
  sf_not_negative f -> SFltb f g = true -> SFleb (S754_zero false) f = true.
Proof.
  destruct f as [s|s| |s m e]; try destruct s; simpl; try tauto; try reflexivity.
Qed.

Lemma SFltb_leb (f g : spec_float) : SFltb f g = true -> SFleb f g = true.
Proof.
  unfold SFltb, SFleb.
  destruct (SFcompare f g) as [[]|]; (discriminate || reflexivity).
Qed.

(** Rounding keeps the sign it is given. *)
Lemma binary_round_aux_not_negative (m e : Z) (l : location) :
  sf_not_negative (binary_round_aux prec emax false m e l).
Proof.
  unfold binary_round_aux.
  destruct (shr_fexp prec emax m e l) as [mrs' e'].
  destruct (shr_fexp prec emax _ e' loc_Exact) as [mrs'' e''].
  destruct (shr_m mrs''); [exact I| |exact I].
  destruct (Z.leb e'' (emax - prec)); exact I.
Qed.

Lemma binary_normalize_not_negative (m e : Z) :
  (0 <= m)%Z -> sf_not_negative (binary_normalize prec emax m e false).
Proof.
  intros Hm. destruct m as [|m|m]; [exact I| |lia].
  unfold binary_normalize, binary_round.
  destruct (shl_align m e _) as [mz ez].
  apply binary_round_aux_not_negative.
Qed.

Lemma SFdiv_not_negative (x : spec_float) (my : positive) (ey : Z) :
  sf_nonneg x -> sf_not_negative (SF64div x (S754_finite false my ey)).
Proof.
  destruct x as [sx|sx| |sx mx ex]; try destruct sx; try (simpl; tauto).
  intros _. unfold SF64div, SFdiv.
  destruct (SFdiv_core_binary prec emax (Z.pos mx) ex (Z.pos my) ey) as [[mz ez] lz].
  apply binary_round_aux_not_negative.
Qed.

Lemma SFmul_not_negative (x y : spec_float) :
  sf_not_negative x -> sf_not_negative y -> sf_not_negative (SF64mul x y).
Proof.
  destruct x as [sx|sx| |sx mx ex]; try destruct sx; try (simpl; tauto);
  destruct y as [sy|sy| |sy my ey]; try destruct sy; try (simpl; tauto).
  intros _ _. unfold SF64mul, SFmul. apply binary_round_aux_not_negative.
Qed.

Lemma SFadd_not_negative (x y : spec_float) :
  sf_not_negative x -> sf_not_negative y -> sf_not_negative (SF64add x y).
Proof.
  destruct x as [sx|sx| |sx mx ex]; try destruct sx; try (simpl; tauto);
  destruct y as [sy|sy| |sy my ey]; try destruct sy; try (simpl; tauto).
  intros _ _. unfold SF64add, SFadd, cond_Zopp.
  apply binary_normalize_not_negative. lia.
Qed.

Lemma overprint_layer_components_binary64 (c0 c1 c2 c3 b0 b1 b2 b3 t : float) :
  overprint_layer (c0, c1, c2, c3) (b0, b1, b2, b3) t =
  (py_min 100 (c0 + b0 * (t / 100) * 100),
   py_min 100 (c1 + b1 * (t / 100) * 100),
   py_min 100 (c2 + b2 * (t / 100) * 100),
   py_min 100 (c3 + b3 * (t / 100) * 100))%float.
Proof. reflexivity. Qed.

(** One component of [overprint_layer] on doubles. *)
Lemma saturating_add_binary64 (c b t : float) :
  (0 <=? c)%float = true -> (0 <=? b)%float = true -> (0 <=? t)%float = true ->
  (0 <=? py_min 100 (c + b * (t / 100) * 100))%float = true /\
  (py_min 100 (c + b * (t / 100) * 100) <=? 100)%float = true.
Proof.
  intros Hc Hb Ht. unfold py_min. cbn [ltb binary64_Number].
  set (x := (c + b * (t / 100) * 100)%float).
  destruct (x <? 100)%float eqn:Hx; [|by split].
  rewrite !FloatAxioms.leb_spec. rewrite FloatAxioms.leb_spec in Hc, Hb, Ht.
  rewrite FloatAxioms.ltb_spec in Hx.
  apply SFleb_zero_nonneg in Hc, Hb, Ht.
  split; [|by apply SFltb_leb].
  apply (sf_not_negative_leb_zero _ (Prim2SF 100)); [|exact Hx].
  subst x. rewrite FloatAxioms.add_spec, !FloatAxioms.mul_spec, FloatAxioms.div_spec.
  apply SFadd_not_negative; [by apply sf_nonneg_not_negative|].
  apply SFmul_not_negative; [|exact I].
  apply SFmul_not_negative; [by apply sf_nonneg_not_negative|].
  by apply (SFdiv_not_negative _ 7036874417766400 (-46)).
Qed.

(** C1 (saturation), on the doubles the program computes with: with current
    components in [0,100], base components in [0,1] and a tint in [0,100],
    every component [overprint_layer] returns is a number at most 100 and at
    least 0. *)
Theorem overprint_layer_saturates (current base : cmyk float) (tint : float) :
  within_binary64 0 100 current -> within_binary64 0 1 base ->
  (0 <=? tint)%float = true -> (tint <=? 100)%float = true ->
  within_binary64 0 100 (overprint_layer current base tint).
Proof.
  destruct current as [[[c0 c1] c2] c3], base as [[[b0 b1] b2] b3].
  intros ([H0 _] & [H1 _] & [H2 _] & [H3 _]) ([B0 _] & [B1 _] & [B2 _] & [B3 _]) Ht _.
  rewrite overprint_layer_components_binary64. unfold within_binary64.
  repeat split; by apply saturating_add_binary64.
Qed.

Lemma overprint_layer_saturates_witness :
  within_binary64 0 100
    (overprint_layer (30, 0, 95, 100)%float (0, dec 7 1, dec 7 1, 0)%float 50%float).
Proof.
  apply overprint_layer_saturates; vm_compute; repeat split; reflexivity.
Defined.

Lemma same_cmyk_true (c0 c1 c2 c3 d0 d1 d2 d3 : Q) :
  (c0 == d0)%Q -> (c1 == d1)%Q -> (c2 == d2)%Q -> (c3 == d3)%Q ->
  same_cmyk (c0, c1, c2, c3) (d0, d1, d2, d3) = true.
Proof.
  intros H0 H1 H2 H3. unfold same_cmyk; simpl.
  rewrite !andb_true_iff, !Qeq_bool_iff. done.
Qed.

(** A layer whose base component is 0 leaves a component below the cap. *)
Lemma saturating_add_zero (c t : Q) :
  (c <= 100)%Q ->
  (c == py_min (inject_Z 100) (c + inject_Z 0 * (t / inject_Z 100) * inject_Z 100))%Q.
Proof.
  intros Hc.
  destruct (py_min_cases (inject_Z 100) (c + inject_Z 0 * (t / inject_Z 100) * inject_Z 100)%Q)
    as [[H ->]|[H ->]]; unfold inject_Z in *; lra.
Qed.

(** A layer whose base component is 1 adds the tint itself. *)
Lemma saturating_add_one (c t : Q) :
  (py_min (inject_Z 100) (c + t) ==
   py_min (inject_Z 100) (c + inject_Z 1 * (t / inject_Z 100) * inject_Z 100))%Q.
Proof.
  rewrite !py_min_Qmin. apply Q.min_compat; [reflexivity|].
  rewrite layer_share. unfold inject_Z. ring.
Qed.

(** C9, in exact arithmetic: for a pure process channel, a current quadruple
    with components in [0,100] and a tint in (0,100], raising the single
    component of the channel by [min(100, current + tint)] gives the
    quadruple [overprint_layer] gives with the base of the channel. *)
Theorem process_tint_is_overprint (colour_name : string) (base current : cmyk Q) (tint : Q) :
  colour_name ∈ ["Cyan"; "Magenta"; "Yellow"; "Black"] ->
  CMYK_DEFINITIONS !! colour_name = Some base ->
  within 0 100 current -> (0 < tint <= 100)%Q ->
  same_cmyk (add_process_tint colour_name current tint)
            (overprint_layer current base tint) = true.
Proof.
  intros Hname Hbase Hcur Ht.
  destruct current as [[[c0 c1] c2] c3].
  destruct Hcur as (H0 & H1 & H2 & H3).
  rewrite !elem_of_cons in Hname.
  destruct Hname as [->|[->|[->|[->|Hnil]]]]; [..|by apply elem_of_nil in Hnil];
    vm_compute in Hbase; injection Hbase as <-;
    rewrite overprint_layer_components;
    apply same_cmyk_true;
    first [ apply saturating_add_one | apply saturating_add_zero; lra ].
Qed.

Lemma process_tint_is_overprint_witness :
  same_cmyk (add_process_tint "Yellow" (10, 20, 95, 0)%Q 30%Q)
            (overprint_layer (10, 20, 95, 0)%Q (0, 0, 1, 0)%Q 30%Q) = true.
Proof.
  apply process_tint_is_overprint.
  - rewrite !elem_of_cons. auto.
  - reflexivity.
  - unfold within, Qle; simpl; lia.
  - unfold Qle, Qlt; simpl; lia.
Defined.

(** C9 as stated fails on the floats the program runs on: a fixed Cyan of 7
    gives the component 7.0 directly, and the next double above 7.0 through
    [overprint_layer], since [7 / 100.0 * 100] rounds up. *)
Lemma process_tint_differs_in_binary64 :
  CMYK_DEFINITIONS !! "Cyan" = Some (1, 0, 0, 0)%float /\
  add_process_tint "Cyan" (0, 0, 0, 0)%float 7%float = (7, 0, 0, 0)%float /\
  overprint_layer (0, 0, 0, 0)%float (1, 0, 0, 0)%float 7%float
    = (PrimFloat.next_up 7, 0, 0, 0)%float /\
  same_cmyk (add_process_tint "Cyan" (0, 0, 0, 0)%float 7%float)
            (overprint_layer (0, 0, 0, 0)%float (1, 0, 0, 0)%float 7%float) = false.
Proof. repeat split; vm_compute; reflexivity. Qed.

(** Two saturating additions of non-negative amounts, in either order. *)
Lemma saturating_add_swap (c a b : Q) :
  (0 <= a)%Q -> (0 <= b)%Q ->
  (py_min (inject_Z 100) (py_min (inject_Z 100) (c + a) + b) ==
   py_min (inject_Z 100) (py_min (inject_Z 100) (c + b) + a))%Q.
Proof.
  intros Ha Hb.
  destruct (py_min_cases (inject_Z 100) (c + a)%Q) as [[H1 ->]|[H1 ->]];
  destruct (py_min_cases (inject_Z 100) (c + b)%Q) as [[H2 ->]|[H2 ->]];
  match goal with
  | |- (py_min ?x ?y == py_min ?x ?z)%Q =>
    destruct (py_min_cases x y) as [[H3 ->]|[H3 ->]];
    destruct (py_min_cases x z) as [[H4 ->]|[H4 ->]]
  end; unfold inject_Z in *; lra.
Qed.

Lemma cmyk_equiv_refl (p : cmyk Q) : cmyk_equiv p p.
Proof. destruct p as [[[c0 c1] c2] c3]. by repeat split. Qed.

Lemma cmyk_equiv_trans (p q r : cmyk Q) :
  cmyk_equiv p q -> cmyk_equiv q r -> cmyk_equiv p r.
Proof.
  destruct p as [[[p0 p1] p2] p3], q as [[[q0 q1] q2] q3], r as [[[r0 r1] r2] r3].
  intros (H0 & H1 & H2 & H3) (K0 & K1 & K2 & K3).
  repeat split; etransitivity; eassumption.
Qed.

Lemma same_cmyk_equiv (p q : cmyk Q) : same_cmyk p q = true <-> cmyk_equiv p q.
Proof.
  destruct p as [[[p0 p1] p2] p3], q as [[[q0 q1] q2] q3].
  unfold same_cmyk, cmyk_equiv; simpl.
  rewrite !andb_true_iff, !Qeq_bool_iff. tauto.
Qed.

(** Two layers with non-negative bases and tints, in either order. *)
Lemma overprint_layer_swap (current base1 base2 : cmyk Q) (tint1 tint2 : Q) :
  at_least 0 base1 -> at_least 0 base2 -> (0 <= tint1)%Q -> (0 <= tint2)%Q ->
  cmyk_equiv
    (overprint_layer (overprint_layer current base1 tint1) base2 tint2)
    (overprint_layer (overprint_layer current base2 tint2) base1 tint1).
Proof.
  destruct current as [[[c0 c1] c2] c3].
  destruct base1 as [[[a0 a1] a2] a3], base2 as [[[b0 b1] b2] b3].
  intros (A0 & A1 & A2 & A3) (B0 & B1 & B2 & B3) Ht1 Ht2.
  rewrite !overprint_layer_components.
  repeat split; apply saturating_add_swap;
    rewrite layer_share; by apply Qmult_le_0_compat.
Qed.

(** C10: in exact arithmetic, from a non-negative quadruple, two layers with
    non-negative bases and tints give the same quadruple in either order. *)
Theorem overprint_layer_commutes (current base1 base2 : cmyk Q) (tint1 tint2 : Q) :
  at_least 0 current -> at_least 0 base1 -> at_least 0 base2 ->
  (0 <= tint1)%Q -> (0 <= tint2)%Q ->
  same_cmyk
    (overprint_layer (overprint_layer current base1 tint1) base2 tint2)
    (overprint_layer (overprint_layer current base2 tint2) base1 tint1) = true.
Proof.
  intros _ Hb1 Hb2 Ht1 Ht2. by apply same_cmyk_equiv, overprint_layer_swap.
Qed.

Lemma overprint_layer_commutes_witness :
  same_cmyk
    (overprint_layer (overprint_layer (60, 0, 30, 0)%Q (0, 0.7, 0.7, 0)%Q 90%Q)
                     (0.7, 0.7, 0, 0)%Q 80%Q)
    (overprint_layer (overprint_layer (60, 0, 30, 0)%Q (0.7, 0.7, 0, 0)%Q 80%Q)
                     (0, 0.7, 0.7, 0)%Q 90%Q) = true.
Proof.
  apply overprint_layer_commutes; unfold at_least, Qle; simpl; lia.
Defined.

Lemma saturating_add_proper (c c' x : Q) :
  (c == c')%Q -> (py_min (inject_Z 100) (c + x) == py_min (inject_Z 100) (c' + x))%Q.
Proof.
  intros Hc. rewrite !py_min_Qmin. apply Q.min_compat; [reflexivity|]. by rewrite Hc.
Qed.

Lemma overprint_layer_proper (p q base : cmyk Q) (tint : Q) :
  cmyk_equiv p q -> cmyk_equiv (overprint_layer p base tint) (overprint_layer q base tint).
Proof.
  destruct p as [[[p0 p1] p2] p3], q as [[[q0 q1] q2] q3], base as [[[b0 b1] b2] b3].
  intros (H0 & H1 & H2 & H3). rewrite !overprint_layer_components.
  repeat split; by apply saturating_add_proper.
Qed.

Lemma overprint_layers_proper (layers : list (cmyk Q * Q)) (p q : cmyk Q) :
  cmyk_equiv p q -> cmyk_equiv (overprint_layers p layers) (overprint_layers q layers).
Proof.
  revert p q. induction layers as [|layer layers IH]; intros p q Hpq; [done|].
  apply IH. by apply overprint_layer_proper.
Qed.

(** X12: the colour of a stack of non-negative layers does not depend on
    the order in which they are overprinted. *)
Lemma overprint_layers_any_order (layers layers' : list (cmyk Q * Q)) (current : cmyk Q) :
  layers ≡ₚ layers' -> Forall nonneg_layer layers ->
  cmyk_equiv (overprint_layers current layers) (overprint_layers current layers').
Proof.
  intros Hperm. revert current.
  induction Hperm as [|x l l' Hperm IH|x y l|l l' l'' H1 IH1 H2 IH2];
    intros current Hnn.
  - apply cmyk_equiv_refl.
  - apply Forall_cons in Hnn as [_ Hnn].
    change (cmyk_equiv (overprint_layers (overprint_layer current x.1 x.2) l)
                       (overprint_layers (overprint_layer current x.1 x.2) l')).
    by apply IH.
  - apply Forall_cons in Hnn as [[Hy Hty] Hnn].
    apply Forall_cons in Hnn as [[Hx Htx] _].
    change (cmyk_equiv
              (overprint_layers
                 (overprint_layer (overprint_layer current y.1 y.2) x.1 x.2) l)
              (overprint_layers
                 (overprint_layer (overprint_layer current x.1 x.2) y.1 y.2) l)).
    apply overprint_layers_proper. by apply overprint_layer_swap.
  - eapply cmyk_equiv_trans; [by apply IH1|].
    apply IH2. by rewrite <- H1.
Qed.

(** ** Page geometry *)

Lemma BOX_AREA_HORIZ_MARGIN_TOTAL_Q : BOX_AREA_HORIZ_MARGIN_TOTAL = (198425197 # 1000000)%Q.
Proof. reflexivity. Qed.

Lemma BOX_AREA_VERT_MARGIN_TOTAL_Q : BOX_AREA_VERT_MARGIN_TOTAL = (198425197 # 1000000)%Q.
Proof. reflexivity. Qed.

Lemma X_REF_START_OFFSET_Q : X_REF_START_OFFSET = (42519685 # 1000000)%Q.
Proof. reflexivity. Qed.

Lemma Y_REF_START_OFFSET_Q : Y_REF_START_OFFSET = (42519685 # 1000000)%Q.
Proof. reflexivity. Qed.

Lemma BOX_SPACING_Q : BOX_SPACING = (113385827 # 10000000)%Q.
Proof. reflexivity. Qed.

Lemma box_width_Q (W : Q) : (box_width W == (W - (198425197 # 1000000)) / 11)%Q.
Proof. unfold box_width. rewrite BOX_AREA_HORIZ_MARGIN_TOTAL_Q. reflexivity. Qed.

Lemma box_height_Q (H : Q) : (box_height H == (H - (198425197 # 1000000)) / 11)%Q.
Proof. unfold box_height. rewrite BOX_AREA_VERT_MARGIN_TOTAL_Q. reflexivity. Qed.

(** C6 (tiling): in exact arithmetic eleven boxes, ten gaps and the start
    offset on both sides make up the page width exactly, and likewise the
    height, because ten gaps and two offsets are the total margin. *)
Theorem grid_tiles_page (W H : Q) :
  (10 * BOX_SPACING + 2 * X_REF_START_OFFSET == BOX_AREA_HORIZ_MARGIN_TOTAL)%Q /\
  (11 * box_width W + 10 * BOX_SPACING + 2 * X_REF_START_OFFSET == W)%Q /\
  (11 * box_height H + 10 * BOX_SPACING + 2 * Y_REF_START_OFFSET == H)%Q.
Proof.
  rewrite box_width_Q, box_height_Q.
  rewrite BOX_SPACING_Q, X_REF_START_OFFSET_Q, Y_REF_START_OFFSET_Q,
    BOX_AREA_HORIZ_MARGIN_TOTAL_Q.
  split; [|split].
  - lra.
  - field.
  - field.
Qed.

(** The right edge of the last column is one start offset short of the
    page width, and the top edge of the last row of the height. *)
Lemma last_box_meets_margin (W H : Q) :
  (box_x_bl W 10 + box_width W + X_REF_START_OFFSET == W)%Q /\
  (box_y_bl H 10 + box_height H + Y_REF_START_OFFSET == H)%Q.
Proof.
  unfold box_x_bl, box_y_bl. cbn [add mul of_int Q_Number].
  rewrite box_width_Q, box_height_Q.
  rewrite BOX_SPACING_Q, X_REF_START_OFFSET_Q, Y_REF_START_OFFSET_Q.
  unfold inject_Z. split; field.
Qed.

(** ** The sweep *)

(** C2 (start-value clamp): for a median in [0,100] and a step in [1,9] the
    start value the program computes is the one the precedence rule of the
    specification gives; median 85 with step 3 starts at 70 and median 65
    with step 3 at 50. *)
Theorem sweep_start_follows_precedence :
  (forall M S : Z, 0 <= M <= 100 -> 1 <= S <= 9 -> sweep_start M S = spec_start M S) /\
  sweep_start 85 3 = 70 /\ sweep_start 65 3 = 50.
Proof.
  split; [|done].
  intros M S HM HS. unfold sweep_start, spec_start.
  repeat match goal with
         | |- context [?a >? ?b] => destruct (Z.gtb_spec a b)
         | |- context [?a <? ?b] => destruct (Z.ltb_spec a b)
         end; lia.
Qed.

Lemma sweep_start_follows_precedence_witness :
  sweep_start 98 9 = spec_start 98 9 /\ sweep_start 2 9 = spec_start 2 9.
Proof.
  split; apply (proj1 sweep_start_follows_precedence); lia.
Defined.

Lemma sweep_start_cases (M S : Z) :
  0 <= M <= 100 -> 1 <= S <= 9 ->
  (100 < M + 5 * S /\ sweep_start M S = 100 - 10 * S) \/
  (M - 5 * S < 0 /\ sweep_start M S = 0) \/
  (0 <= M - 5 * S /\ M + 5 * S <= 100 /\ sweep_start M S = M - 5 * S).
Proof.
  intros HM HS. unfold sweep_start.
  destruct (Z.gtb_spec (S * 5 + M) 100), (Z.ltb_spec (M - S * 5) 0); lia.
Qed.

(** C3: for a median in [0,100] and a step in [1,9], each of the eleven
    values [start + i * step], [i] from 0 to 10, lies in [0,100]. *)
Theorem sweep_values_in_range (M S i : Z) :
  0 <= M <= 100 -> 1 <= S <= 9 -> 0 <= i <= 10 ->
  0 <= sweep_start M S + i * S <= 100.
Proof.
  intros HM HS Hi.
  destruct (sweep_start_cases M S HM HS) as [[? ->]|[[? ->]|(? & ? & ->)]]; nia.
Qed.

Lemma sweep_values_in_range_witness : 0 <= sweep_start 98 9 + 10 * 9 <= 100.
Proof. apply sweep_values_in_range; lia. Defined.

(** With the start value of the program the clamp on access never bites. *)
Lemma clamped_tint_unclamped (M S i : Z) :
  0 <= M <= 100 -> 1 <= S <= 9 -> 0 <= i <= 10 ->
  clamped_tint (sweep_start M S) S i = sweep_start M S + i * S.
Proof.
  intros HM HS Hi. unfold clamped_tint.
  destruct (sweep_start_cases M S HM HS) as [[? ->]|[[? ->]|(? & ? & ->)]]; nia.
Qed.

(** C4 (monotonic sweep): for a median in [0,100] and a step in [1,9], the
    eleven clamped tints never decrease, and two consecutive ones differ by
    exactly the step unless the clamp at 0 or at 100 applies to the pair. *)
Theorem clamped_sweep_monotone (M S i : Z) :
  0 <= M <= 100 -> 1 <= S <= 9 -> 0 <= i < 10 ->
  let start := sweep_start M S in
  clamped_tint start S i <= clamped_tint start S (i + 1) /\
  (0 <= start + i * S -> start + (i + 1) * S <= 100 ->
   clamped_tint start S (i + 1) - clamped_tint start S i = S).
Proof.
  intros HM HS Hi start. unfold clamped_tint. split; [nia|]. intros. nia.
Qed.

Lemma clamped_sweep_monotone_witness :
  clamped_tint (sweep_start 85 3) 3 9 <= clamped_tint (sweep_start 85 3) 3 (9 + 1) /\
  (0 <= sweep_start 85 3 + 9 * 3 -> sweep_start 85 3 + (9 + 1) * 3 <= 100 ->
   clamped_tint (sweep_start 85 3) 3 (9 + 1) - clamped_tint (sweep_start 85 3) 3 9 = 3).
Proof. apply (clamped_sweep_monotone 85 3 9); lia. Defined.

(** Under the same ranges the exception never arises: consecutive tints
    differ by the step throughout. *)
Lemma clamped_sweep_exact_step (M S i : Z) :
  0 <= M <= 100 -> 1 <= S <= 9 -> 0 <= i < 10 ->
  clamped_tint (sweep_start M S) S (i + 1) - clamped_tint (sweep_start M S) S i = S.
Proof.
  intros HM HS Hi. rewrite !clamped_tint_unclamped by lia. lia.
Qed.

(** ** Channel selection *)

Section SelectionFacts.
Variable get_colour_input : string -> tint_input.
Variable get_median_input : string -> Z.


(** A turn of the loop touches the entry of its own colour only. *)
Lemma select_colour_other (ci : gmap string colour_input) (vd : list var_col)
    (colour_name c : string) :
  colour_name ≠ c -> (select_colour get_colour_input get_median_input (ci, vd) colour_name).1 !! c = ci !! c.
Proof.
  intros Hne. unfold select_colour.
  destruct (get_colour_input colour_name); [destruct (_ <? _)%nat|]; simpl;
    rewrite ?lookup_alter_ne by done; by rewrite lookup_insert_ne.
Qed.

Lemma select_loop_other (l : list string) (ci : gmap string colour_input)
    (vd : list var_col) (c : string) :
  c ∉ l -> (foldl (select_colour get_colour_input get_median_input) (ci, vd) l).1 !! c = ci !! c.
Proof.
  revert ci vd. induction l as [|c0 l IH]; intros ci vd Hc; [done|].
  apply not_elem_of_cons in Hc as [Hne Hc]. cbn [foldl].
  destruct (select_colour get_colour_input get_median_input (ci, vd) c0) as [ci' vd'] eqn:E.
  rewrite IH by done. change ci' with (ci', vd').1. rewrite <- E.
  by apply select_colour_other.
Qed.

(** The names recorded as variable are the first marked ones, as long as
    fewer than two are recorded. *)
Lemma select_loop_names (l : list string) (ci : gmap string colour_input)
    (vd : list var_col) :
  name <$> (foldl (select_colour get_colour_input get_median_input) (ci, vd) l).2
  = (name <$> vd) ++ take (2 - length vd) (filter (fun c0 : string => get_colour_input c0 = V) l).
Proof.
  revert ci vd. induction l as [|c0 l IH]; intros ci vd.
  - simpl. by rewrite filter_nil, take_nil, app_nil_r.
  - cbn [foldl]. unfold select_colour at 2.
    destruct (decide (get_colour_input c0 = V)) as [HV|HV].
    + rewrite filter_cons_True by done. rewrite HV.
      destruct (Nat.ltb_spec (length vd) 2) as [Hlt|Hge].
      * rewrite IH, fmap_app, length_app, <- app_assoc. simpl.
        replace (2 - length vd)%nat with (S (2 - (length vd + 1)))%nat by lia.
        done.
      * rewrite IH. by replace (2 - length vd)%nat with 0%nat by lia.
    + rewrite filter_cons_False by done.
      destruct (get_colour_input c0); [done|]. by rewrite IH.
Qed.

(** A colour marked variable once two are recorded ends with the value 0. *)
Lemma select_loop_downgrades (l : list string) (ci : gmap string colour_input)
    (vd : list var_col) (c : string) :
  NoDup l ->
  c ∈ drop (2 - length vd) (filter (fun c0 : string => get_colour_input c0 = V) l) ->
  value <$> (foldl (select_colour get_colour_input get_median_input) (ci, vd) l).1 !! c = Some (Tint 0).
Proof.
  revert ci vd. induction l as [|c0 l IH]; intros ci vd Hnd Hc.
  - rewrite filter_nil, drop_nil in Hc. by apply elem_of_nil in Hc.
  - apply NoDup_cons in Hnd as [Hc0 Hnd]. cbn [foldl]. unfold select_colour at 2.
    destruct (decide (get_colour_input c0 = V)) as [HV|HV].
    + rewrite filter_cons_True in Hc by done. rewrite HV.
      destruct (Nat.ltb_spec (length vd) 2) as [Hlt|Hge].
      * apply IH; [done|]. rewrite length_app. simpl.
        replace (2 - length vd)%nat with (S (2 - (length vd + 1)))%nat in Hc by lia.
        done.
      * replace (2 - length vd)%nat with 0%nat in Hc by lia. simpl in Hc.
        apply elem_of_cons in Hc as [->|Hc].
        -- rewrite select_loop_other by done.
           by rewrite lookup_alter_eq, lookup_insert_eq.
        -- apply IH; [done|]. by replace (2 - length vd)%nat with 0%nat by lia.
    + rewrite filter_cons_False in Hc by done.
      destruct (get_colour_input c0); [done|]. by apply IH.
Qed.

Lemma colour_order_NoDup : NoDup colour_order.
Proof. apply (bool_decide_unpack _). by vm_compute. Qed.

Lemma select_colours_names :
  name <$> (select_colours get_colour_input get_median_input).2
  = take 2 (marked_variable get_colour_input).
Proof. unfold select_colours. by rewrite select_loop_names. Qed.

Lemma select_colours_downgrades (c : string) :
  c ∈ drop 2 (marked_variable get_colour_input) ->
  value <$> (select_colours get_colour_input get_median_input).1 !! c = Some (Tint 0).
Proof.
  intros Hc. apply select_loop_downgrades; [apply colour_order_NoDup | done].
Qed.

End SelectionFacts.

(** C5 (third-variable downgrade): when three or more channels are marked
    variable, the first two marked, in selection order, are the two axes and
    every later marked channel gets the fixed tint 0; with Cyan, Black and
    Orange marked, the axes are Cyan and Black and Orange is at 0. *)
Theorem third_variable_downgraded
    (get_colour_input : string -> tint_input) (get_median_input : string -> Z) :
  let colour_inputs := (select_colours get_colour_input get_median_input).1 in
  let variable_colours_data := (select_colours get_colour_input get_median_input).2 in
  ((3 <= length (marked_variable get_colour_input))%nat ->
   name <$> variable_colours_data = take 2 (marked_variable get_colour_input) /\
   forall c, c ∈ drop 2 (marked_variable get_colour_input) ->
             value <$> colour_inputs !! c = Some (Tint 0)) /\
  (marked_variable get_colour_input = ["Cyan"; "Black"; "Orange"] ->
   name <$> variable_colours_data = ["Cyan"; "Black"] /\
   value <$> colour_inputs !! "Orange" = Some (Tint 0)).
Proof.
  intros colour_inputs variable_colours_data. split.
  - intros _. split; [apply select_colours_names|].
    intros c Hc. by apply select_colours_downgrades.
  - intros Hm. split.
    + unfold variable_colours_data. by rewrite select_colours_names, Hm.
    + apply select_colours_downgrades. rewrite Hm. simpl.
      rewrite !elem_of_cons. auto.
Qed.

Lemma third_variable_downgraded_witness :
  name <$> (select_colours orange_too_colour_input default_median_input).2
    = take 2 (marked_variable orange_too_colour_input) /\
  forall c, c ∈ drop 2 (marked_variable orange_too_colour_input) ->
    value <$> (select_colours orange_too_colour_input default_median_input).1 !! c
      = Some (Tint 0).
Proof.
  apply (third_variable_downgraded orange_too_colour_input default_median_input).
  vm_compute. lia.
Defined.

(** ** The grid is always drawn *)

Section SelectionDomain.
Variable get_colour_input : string -> tint_input.
Variable get_median_input : string -> Z.


Lemma select_colour_keeps (ci : gmap string colour_input) (vd : list var_col)
    (colour_name c : string) :
  colour_name = c \/ is_Some (ci !! c) -> is_Some ((select_colour get_colour_input get_median_input (ci, vd) colour_name).1 !! c).
Proof.
  intros Hc. unfold select_colour.
  assert (is_Some (<[colour_name:={| value := get_colour_input colour_name;
                                     median := 0 |}]> ci !! c)) as Hin.
  { rewrite lookup_insert_is_Some.
    destruct (decide (colour_name = c)) as [|Hne]; [by left|].
    right. by destruct Hc. }
  destruct (get_colour_input colour_name); [destruct (_ <? _)%nat|]; simpl;
    by rewrite ?lookup_alter_is_Some.
Qed.

Lemma select_loop_keeps (l : list string) (ci : gmap string colour_input)
    (vd : list var_col) (c : string) :
  c ∈ l \/ is_Some (ci !! c) -> is_Some ((foldl (select_colour get_colour_input get_median_input) (ci, vd) l).1 !! c).
Proof.
  revert ci vd. induction l as [|c0 l IH]; intros ci vd Hc.
  - destruct Hc as [Hc|Hc]; [by apply elem_of_nil in Hc | done].
  - cbn [foldl]. destruct (select_colour get_colour_input get_median_input (ci, vd) c0) as [ci' vd'] eqn:E.
    apply IH. rewrite elem_of_cons in Hc.
    destruct Hc as [[->|Hc]|Hc]; [right | by left | right];
      change ci' with (ci', vd').1; rewrite <- E; apply select_colour_keeps; auto.
Qed.

(** After the selection every colour of [colour_order] has its entry. *)
Lemma select_colours_defined (c : string) :
  c ∈ colour_order ->
  is_Some ((select_colours get_colour_input get_median_input).1 !! c).
Proof. intros Hc. apply select_loop_keeps. by left. Qed.

(** The variable colours are colours of [colour_order]. *)
Lemma select_colours_known (v : var_col) :
  v ∈ (select_colours get_colour_input get_median_input).2 -> name v ∈ colour_order.
Proof.
  intros Hv. apply (list_elem_of_fmap_2 name) in Hv.
  rewrite select_colours_names in Hv.
  apply elem_of_take in Hv as (i & Hv & _).
  apply list_elem_of_lookup_2 in Hv.
  by apply list_elem_of_filter in Hv as [_ Hv].
Qed.

End SelectionDomain.

Lemma planned_inputs_fst (get_colour_input : string -> tint_input)
    (get_median_input : string -> Z) (step_val : Z) :
  (planned_inputs get_colour_input get_median_input step_val).1
  = (select_colours get_colour_input get_median_input).1.
Proof. unfold planned_inputs. by destruct (select_colours _ _). Qed.

Lemma planned_inputs_snd (get_colour_input : string -> tint_input)
    (get_median_input : string -> Z) (step_val : Z) :
  (planned_inputs get_colour_input get_median_input step_val).2
  = calculate_start_values step_val (select_colours get_colour_input get_median_input).2.
Proof. unfold planned_inputs. by destruct (select_colours _ _). Qed.

Lemma select_loop_medians (get_colour_input : string -> tint_input)
    (get_median_input : string -> Z) (l : list string)
    (ci : gmap string colour_input) (vd : list var_col) :
  Forall (fun v => median_tint v = get_median_input (name v)) vd ->
  Forall (fun v => median_tint v = get_median_input (name v))
         (foldl (select_colour get_colour_input get_median_input) (ci, vd) l).2.
Proof.
  revert ci vd. induction l as [|c0 l IH]; intros ci vd Hvd; [done|].
  cbn [foldl]. unfold select_colour at 2.
  destruct (get_colour_input c0); [destruct (_ <? _)%nat|]; apply IH; [|done..].
  apply Forall_app. split; [done|]. by apply Forall_singleton.
Qed.

(** The sweeps of the run: with validated medians and step, every variable
    channel starts where [sweep_start] puts it and its eleven tints need no
    clamping. *)
Lemma planned_sweeps_in_range (get_colour_input : string -> tint_input)
    (get_median_input : string -> Z) (step_val : Z) (v : var_col) (i : Z) :
  (forall c, 0 <= get_median_input c <= 100) -> 1 <= step_val <= 9 ->
  v ∈ (planned_inputs get_colour_input get_median_input step_val).2 ->
  0 <= i <= 10 ->
  start_val v = sweep_start (get_median_input (name v)) step_val /\
  0 <= start_val v + i * step_val <= 100 /\
  clamped_tint (start_val v) step_val i = start_val v + i * step_val.
Proof.
  intros Hmed Hstep Hv Hi. rewrite planned_inputs_snd in Hv.
  unfold calculate_start_values in Hv.
  apply list_elem_of_fmap in Hv as (v0 & -> & Hv0). simpl.
  pose proof (select_loop_medians get_colour_input get_median_input
                colour_order ∅ [] (Forall_nil_2 _)) as Hall.
  rewrite Forall_forall in Hall. rewrite (Hall v0 Hv0).
  pose proof (clamped_tint_unclamped (get_median_input (name v0)) step_val i
                (Hmed _) Hstep Hi) as Hraw.
  split; [done|]. split; [|done].
  unfold clamped_tint in Hraw. lia.
Qed.

(** A channel at the fixed tint 0 adds nothing to a cell. *)
Lemma zero_tint_adds_nothing {num : Type} {N : Number num}
    (colour_inputs : gmap string colour_input) (c : string) (current : cmyk num) :
  value <$> colour_inputs !! c = Some (Tint 0) ->
  process_layer colour_inputs current c = Some current /\
  spot_layer colour_inputs current c = Some current.
Proof.
  unfold process_layer, spot_layer.
  destruct (colour_inputs !! c) as [e|]; [|done]. simpl.
  intros [= ->]. done.
Qed.

Lemma calculate_start_values_names (step_val : Z) (vd : list var_col) (v : var_col) :
  v ∈ calculate_start_values step_val vd -> exists v0, v0 ∈ vd /\ name v = name v0.
Proof.
  unfold calculate_start_values. intros Hv.
  apply list_elem_of_fmap in Hv as (v0 & -> & Hv0). by exists v0.
Qed.

Lemma foldlM_is_Some {A B : Type} (f : A -> B -> option A) (l : list B) (a : A) :
  (forall a b, b ∈ l -> is_Some (f a b)) -> is_Some (foldlM f a l).
Proof.
  revert a. induction l as [|b l IH]; intros a Hf; simpl; [done|].
  destruct (Hf a b) as [a' ->]; [by left|]. simpl.
  apply IH. intros a0 b0 Hb0. apply Hf. by right.
Qed.

Lemma mapM_Some_fmap {A B : Type} (f : A -> option B) (g : A -> B) (l : list A) :
  (forall x, x ∈ l -> f x = Some (g x)) -> mapM f l = Some (g <$> l).
Proof.
  intros Hf. apply mapM_Some. apply Forall2_fmap_r, Forall_Forall2_diag.
  by apply Forall_forall.
Qed.

Section GridFacts.
Context {num : Type} {N : Number num}.

Lemma CMYK_DEFINITIONS_defined (c : string) :
  c ∈ colour_order -> is_Some (CMYK_DEFINITIONS (num:=num) !! c).
Proof.
  unfold colour_order. rewrite !elem_of_cons.
  intros [->|[->|[->|[->|[->|[->|[->|Hc]]]]]]]; [..|by apply elem_of_nil in Hc];
    vm_compute; eauto.
Qed.

Section Cell.
Variable colour_inputs : gmap string colour_input.
Variable variable_colours_data : list var_col.
Hypothesis inputs_defined :
  forall c, c ∈ colour_order -> is_Some (colour_inputs !! c).
Hypothesis variables_known :
  forall v, v ∈ variable_colours_data -> name v ∈ colour_order.

Lemma process_layer_is_Some (current : cmyk num) (c : string) :
  c ∈ colour_order -> is_Some (process_layer colour_inputs current c).
Proof.
  intros Hc. unfold process_layer.
  destruct (inputs_defined c Hc) as [e ->]. simpl.
  destruct (value e) as [|t]; [eauto|]. destruct (t >? 0); eauto.
Qed.

Lemma spot_layer_is_Some (current : cmyk num) (c : string) :
  c ∈ colour_order -> is_Some (spot_layer colour_inputs current c).
Proof.
  intros Hc. unfold spot_layer.
  destruct (inputs_defined c Hc) as [e ->]. simpl.
  destruct (value e) as [|t]; [eauto|]. destruct (t >? 0); [|eauto].
  destruct (CMYK_DEFINITIONS_defined c Hc) as [d ->]. simpl. eauto.
Qed.

Lemma variable_layer_is_Some (axis : nat) (step_val pos : Z) (current : cmyk num) :
  is_Some (variable_layer variable_colours_data axis step_val pos current).
Proof.
  unfold variable_layer.
  destruct (variable_colours_data !! axis) as [v|] eqn:Hv; [|eauto].
  apply list_elem_of_lookup_2, variables_known, CMYK_DEFINITIONS_defined in Hv.
  destruct Hv as [d ->]. simpl. eauto.
Qed.

(** No lookup of the composition raises: every cell gets a colour. *)
Lemma cell_cmyk_is_Some (step_val k_row i_col : Z) :
  is_Some (cell_cmyk colour_inputs variable_colours_data step_val k_row i_col).
Proof.
  unfold cell_cmyk.
  destruct (foldlM_is_Some (process_layer colour_inputs)
              ["Cyan"; "Magenta"; "Yellow"; "Black"]
              (of_int 0, of_int 0, of_int 0, of_int 0)) as [q1 ->].
  { intros a b Hb. apply process_layer_is_Some.
    unfold colour_order. rewrite !elem_of_cons in *. intuition auto 10. }
  cbn [mbind option_bind].
  destruct (foldlM_is_Some (spot_layer colour_inputs) ["Orange"; "Violet"; "Grey"] q1)
    as [q2 ->].
  { intros a b Hb. apply spot_layer_is_Some.
    unfold colour_order. rewrite !elem_of_cons in *. intuition auto 10. }
  cbn [mbind option_bind].
  destruct (variable_layer_is_Some 0 step_val i_col q2) as [q3 ->].
  cbn [mbind option_bind].
  apply variable_layer_is_Some.
Qed.

Lemma draw_cell_painted (docwidthpts docheightpts : num) (step_val k_row i_col : Z)
    (q : cmyk num) :
  cell_cmyk colour_inputs variable_colours_data step_val k_row i_col = Some q ->
  draw_cell docwidthpts docheightpts colour_inputs variable_colours_data
            step_val k_row i_col
  = Some (painted_cell docwidthpts docheightpts q k_row i_col).
Proof.
  intros Hq. unfold draw_cell. rewrite Hq. by destruct q as [[[c0 c1] c2] c3].
Qed.

End Cell.
End GridFacts.

Section GridDrawn.
Context {num : Type} {N : Number num}.

Lemma draw_grid_painted (docwidthpts docheightpts : num)
    (colour_inputs : gmap string colour_input) (variable_colours_data : list var_col)
    (step_val : Z) (col : Z -> Z -> cmyk num) :
  (forall k_row i_col,
     cell_cmyk colour_inputs variable_colours_data step_val k_row i_col
     = Some (col k_row i_col)) ->
  draw_grid docwidthpts docheightpts colour_inputs variable_colours_data step_val
  = Some (k_row ← seqZ 0 11; i_col ← seqZ 0 11;
          painted_cell docwidthpts docheightpts (col k_row i_col) k_row i_col).
Proof.
  intros Hcol. unfold draw_grid.
  rewrite (mapM_Some_fmap _
             (fun k_row => i_col ← seqZ 0 11;
                painted_cell docwidthpts docheightpts (col k_row i_col) k_row i_col)).
  - reflexivity.
  - intros k_row _.
    rewrite (mapM_Some_fmap _
               (fun i_col =>
                  painted_cell docwidthpts docheightpts (col k_row i_col) k_row i_col)).
    + reflexivity.
    + intros i_col _. apply draw_cell_painted, Hcol.
Qed.

Lemma rectangles_painted (docwidthpts docheightpts : num) (col : Z -> Z -> cmyk num)
    (rows cols : list Z) :
  rectangles (k_row ← rows; i_col ← cols;
              painted_cell docwidthpts docheightpts (col k_row i_col) k_row i_col)
  = (k_row ← rows; i_col ← cols; [cell_rectangle docwidthpts docheightpts k_row i_col]).
Proof.
  unfold rectangles.
  induction rows as [|k rows IH]; [done|].
  cbn [mbind list_bind]. rewrite bind_app. cbn [mbind list_bind] in IH. rewrite IH.
  f_equal. clear IH. induction cols as [|i cols IH]; [done|].
  cbn [mbind list_bind]. rewrite bind_app. cbn [mbind list_bind] in IH. by rewrite IH.
Qed.

End GridDrawn.

(** Whatever the answers and the step, a page whose size converts to a
    float gets its 121 rectangles, row by row, each of size [box_width] by
    [box_height]. *)
Lemma swatch_grid_rectangles {num : Type} {N : Number num}
    (get_colour_input : string -> tint_input) (get_median_input : string -> Z)
    (docwidthmm docheightmm step_val : Z) :
  int_overflows docwidthmm = false -> int_overflows docheightmm = false ->
  exists cmds : list (command num),
    swatch_grid get_colour_input get_median_input docwidthmm docheightmm step_val
      = Some cmds /\
    rectangles cmds
      = (k_row ← seqZ 0 11; i_col ← seqZ 0 11;
         [cell_rectangle (docpts docwidthmm) (docpts docheightmm) k_row i_col]).
Proof.
  unfold swatch_grid, page_points. intros -> ->. cbn [mbind option_bind].
  set (ci := (planned_inputs get_colour_input get_median_input step_val).1).
  set (vd := (planned_inputs get_colour_input get_median_input step_val).2).
  assert (forall c, c ∈ colour_order -> is_Some (ci !! c)) as Hdef.
  { intros c Hc. unfold ci. rewrite planned_inputs_fst.
    by apply select_colours_defined. }
  assert (forall v, v ∈ vd -> name v ∈ colour_order) as Hknown.
  { intros v Hv. unfold vd in Hv. rewrite planned_inputs_snd in Hv.
    apply calculate_start_values_names in Hv as (v0 & Hv0 & ->).
    by apply select_colours_known in Hv0. }
  set (col := fun k_row i_col : Z =>
                default (of_int 0, of_int 0, of_int 0, of_int 0)
                        (cell_cmyk (num:=num) ci vd step_val k_row i_col)).
  assert (forall k_row i_col,
            cell_cmyk ci vd step_val k_row i_col = Some (col k_row i_col)) as Hcol.
  { intros k_row i_col. unfold col.
    by destruct (cell_cmyk_is_Some ci vd Hdef Hknown step_val k_row i_col)
      as [q ->]. }
  eexists. split.
  - by apply draw_grid_painted.
  - apply rectangles_painted.
Qed.

(** The one page the program refuses is a page whose width or height is too
    large for a float: line 88 or 89 stops it with [OverflowError]. *)
Lemma oversized_page_is_refused {num : Type} {N : Number num}
    (get_colour_input : string -> tint_input) (get_median_input : string -> Z)
    (docwidthmm docheightmm step_val : Z) :
  int_overflows docwidthmm = true \/ int_overflows docheightmm = true ->
  swatch_grid (num:=num) get_colour_input get_median_input
              docwidthmm docheightmm step_val = None.
Proof.
  unfold swatch_grid, page_points.
  intros [->| ->]; [done|]. by destruct (int_overflows docwidthmm).
Qed.

(** On the doubles of the program a width of [2^1024] mm is refused, and so
    is the largest double plus half a unit in the last place; one below it
    converts. *)
Lemma binary64_oversized_page :
  swatch_grid (num:=float) default_colour_input default_median_input
              (2 ^ 1024) 316 3 = None /\
  int_overflows (num:=float) (2 ^ 1024 - 2 ^ 970) = true /\
  int_overflows (num:=float) (2 ^ 1024 - 2 ^ 970 - 1) = false.
Proof.
  split; [|split]; [|by vm_compute..].
  apply oversized_page_is_refused. left. by vm_compute.
Qed.

(** C7, as the program has it: on a degenerate page, one whose box width or
    box height is at most zero, the program refuses nothing.  With validated
    colour answers and a page size that converts to a float, it computes the
    layout and hands the canvas the 121 rectangles, row by row, each of size
    [box_width] by [box_height], so each of a width or a height that is at
    most zero. *)
Theorem degenerate_page_is_drawn {num : Type} {N : Number num}
    (get_colour_input : string -> tint_input) (get_median_input : string -> Z)
    (docwidthmm docheightmm step_val : Z) :
  (forall c, valid_tint_input (get_colour_input c)) ->
  int_overflows docwidthmm = false -> int_overflows docheightmm = false ->
  degenerate_page (num:=num) docwidthmm docheightmm ->
  exists cmds : list (command num),
    swatch_grid get_colour_input get_median_input docwidthmm docheightmm step_val
      = Some cmds /\
    rectangles cmds
      = (k_row ← seqZ 0 11; i_col ← seqZ 0 11;
         [cell_rectangle (docpts docwidthmm) (docpts docheightmm) k_row i_col]) /\
    Forall degenerate_rectangle (rectangles cmds).
Proof.
  intros _ Hw Hh Hdeg.
  destruct (swatch_grid_rectangles get_colour_input get_median_input
              docwidthmm docheightmm step_val Hw Hh) as (cmds & Hgrid & Hrects).
  exists cmds. split; [exact Hgrid|]. split; [exact Hrects|].
  rewrite Hrects. apply Forall_forall. intros rect Hrect.
  apply list_elem_of_bind in Hrect as (k_row & Hrect & _).
  apply list_elem_of_bind in Hrect as (i_col & Hrect & _).
  apply list_elem_of_singleton in Hrect as ->. exact Hdeg.
Qed.

Lemma degenerate_page_is_drawn_witness :
  exists cmds : list (command float),
    swatch_grid default_colour_input default_median_input 10 10 3 = Some cmds /\
    rectangles cmds
      = (k_row ← seqZ 0 11; i_col ← seqZ 0 11;
         [cell_rectangle (docpts 10) (docpts 10) k_row i_col]) /\
    Forall degenerate_rectangle (rectangles cmds).
Proof.
  apply degenerate_page_is_drawn.
  - intros c. unfold default_colour_input.
    repeat match goal with
           | |- context [String.eqb ?a ?b] => destruct (String.eqb a b)
           end; simpl; lia.
  - reflexivity.
  - reflexivity.
  - left. vm_compute. reflexivity.
Defined.

(** C7 as stated fails: on a page of 10 mm by 10 mm the boxes have negative
    width and height, and the program still lays out and draws its 121
    rectangles, every one of negative size. *)
Lemma tiny_page_is_drawn :
  (box_width (docpts 10) < 0)%Q /\ (box_height (docpts 10) < 0)%Q /\
  exists cmds : list (command Q),
    swatch_grid default_colour_input default_median_input 10 10 3 = Some cmds /\
    length (rectangles cmds) = 121%nat /\
    all_negative_size (rectangles cmds) = true.
Proof.
  split; [by vm_compute|]. split; [by vm_compute|].
  eexists. split; [vm_compute; reflexivity|].
  split; vm_compute; reflexivity.
Qed.

(** ** Labels of the second axis *)

(** The baseline of the label of row [r] is the one section 4.4 gives. *)
Lemma y_label_baseline_formula (H : Q) (r : Z) :
  (y_label_baseline H r
   == H - ((52519685 # 1000000) + inject_Z r * (box_height H + BOX_SPACING)) - 4)%Q.
Proof.
  unfold y_label_baseline. cbn [add sub mul div of_int Q_Number].
  change (dec 52519685 6) with (52519685 # 1000000)%Q.
  unfold inject_Z at 2 3. field.
Qed.

(** On a page whose rows do not overlap, labels of higher rows sit lower. *)
Lemma y_labels_descend (H : Q) (r r' : Z) :
  (0 < box_height H + BOX_SPACING)%Q -> r < r' ->
  (y_label_baseline H r' < y_label_baseline H r)%Q.
Proof.
  intros Hpos Hr. rewrite !y_label_baseline_formula.
  rewrite Zlt_Qlt in Hr.
  pose proof (Qmult_lt_compat_r _ _ _ Hpos Hr). lra.
Qed.

(** The rows themselves go up the page. *)
Lemma grid_rows_ascend (H : Q) (r r' : Z) :
  (0 < box_height H + BOX_SPACING)%Q -> r < r' ->
  (box_y_bl H r < box_y_bl H r')%Q.
Proof.
  intros Hpos Hr. unfold box_y_bl. cbn [add mul of_int Q_Number].
  rewrite Zlt_Qlt in Hr.
  pose proof (Qmult_lt_compat_r _ _ _ Hpos Hr). lra.
Qed.

(** The baseline of lines 312-317, which the program computes and drops,
    goes up the page with the rows. *)
Lemma text_y_rl_centered_ascends (H : Q) (r r' : Z) :
  (0 < box_height H + BOX_SPACING)%Q -> r < r' ->
  (text_y_rl_centered H r < text_y_rl_centered H r')%Q.
Proof.
  intros Hpos Hr. unfold text_y_rl_centered. cbn [add sub mul div of_int Q_Number].
  assert (10 - r' < 10 - r) as Hr' by lia.
  rewrite Zlt_Qlt in Hr'.
  pose proof (Qmult_lt_compat_r _ _ _ Hpos Hr'). lra.
Qed.

(** C8, on the default run (444 mm by 316 mm, Cyan and Black variable with
    medians 65 and 85, step 3): the labels of the second axis are drawn at
    the baselines of section 4.4, "70" for row 0 and "100" for row 10, and
    the label "100" is lower on the page than the label "70" although row
    10 is above row 0; the baseline the program computes and drops would
    have put "100" above "70". *)
Theorem y_axis_labels_run_downwards :
  let H : Q := docpts 316 in
  let labels := swatch_y_axis_values default_colour_input default_median_input 316 3 in
  labels !! 1%nat
    = Some (DrawRightString (dec 22519685 6) (y_label_baseline H 0) "70") /\
  labels !! 21%nat
    = Some (DrawRightString (dec 22519685 6) (y_label_baseline H 10) "100") /\
  (y_label_baseline H 10 < y_label_baseline H 0)%Q /\
  (box_y_bl H 0 < box_y_bl H 10)%Q /\
  (text_y_rl_centered H 0 < text_y_rl_centered H 10)%Q.
Proof.
  cbv zeta. repeat split; vm_compute; reflexivity.
Qed.

(** * The prompts *)

Section PromptFacts.
Variable py_int : string -> option Z.

(** One turn of [get_int_input]: the line is accepted, or the prompt is
    repeated on the lines that remain. *)
Lemma get_int_input_cons (prompt_text default_val_str : string)
    (min_val max_val : option Z) (line : string) (lines out : list string) :
  match accepted_int py_int default_val_str min_val max_val line with
  | Some v =>
    exists out', get_int_input py_int prompt_text default_val_str min_val max_val
                   (line :: lines) out = Some (v, lines, out')
  | None =>
    exists out', get_int_input py_int prompt_text default_val_str min_val max_val
                   (line :: lines) out
                 = get_int_input py_int prompt_text default_val_str min_val max_val
                     lines out'
  end.
Proof.
  unfold accepted_int. cbn [get_int_input].
  destruct (py_int _) as [v|]; cbn [mbind option_bind]; [|eauto].
  destruct min_val as [lo|], max_val as [hi|]; cbn [from_option];
    repeat match goal with
           | |- context [?a <? ?b] => destruct (a <? b)
           | |- context [?a >? ?b] => destruct (a >? b)
           end; cbn [orb]; eauto.
Qed.

Lemma accepted_int_in_bounds (default_val_str : string) (min_val max_val : option Z)
    (line : string) (v : Z) :
  accepted_int py_int default_val_str min_val max_val line = Some v ->
  (forall lo, min_val = Some lo -> lo <= v) /\ (forall hi, max_val = Some hi -> v <= hi).
Proof.
  unfold accepted_int. destruct (py_int _) as [w|]; [|done]. cbn [mbind option_bind].
  destruct (_ || _) eqn:E; [done|]. intros [= ->].
  apply orb_false_iff in E as [E1 E2].
  split; intros b ->; cbn [from_option] in *; lia.
Qed.

(** X2: [get_int_input] returns the value of the first line it accepts and
    leaves the lines after it; the lines before it were all rejected.
    With no acceptable line it ends in the end-of-input error. *)
Theorem get_int_input_first_accepted (prompt_text default_val_str : string)
    (min_val max_val : option Z) (lines out : list string) (v : Z) (rest : list string) :
  (exists out', get_int_input py_int prompt_text default_val_str min_val max_val
                  lines out = Some (v, rest, out'))
  <->
  (exists skipped line,
     lines = skipped ++ line :: rest /\
     Forall (fun l => accepted_int py_int default_val_str min_val max_val l = None)
            skipped /\
     accepted_int py_int default_val_str min_val max_val line = Some v).
Proof.
  revert out. induction lines as [|l lines IH]; intros out.
  - split; [by intros [out' [=]]|].
    intros (skipped & line & Heq & _). by destruct skipped.
  - pose proof (get_int_input_cons prompt_text default_val_str min_val max_val
                  l lines out) as Hl.
    destruct (accepted_int py_int default_val_str min_val max_val l) as [w|] eqn:Hacc.
    + destruct Hl as [out1 Hl]. rewrite Hl. split.
      * intros [out' [= -> -> _]]. exists [], l. by repeat split.
      * intros (skipped & line & Heq & Hskip & Hline).
        destruct skipped as [|s skipped]; simplify_eq/=.
        -- eauto.
        -- apply Forall_cons in Hskip as [Hs _]. congruence.
    + destruct Hl as [out1 Hl]. rewrite Hl, IH. split.
      * intros (skipped & line & -> & Hskip & Hline).
        exists (l :: skipped), line. repeat split; [|done]. by apply Forall_cons.
      * intros (skipped & line & Heq & Hskip & Hline).
        destruct skipped as [|s skipped]; simplify_eq/=.
        apply Forall_cons in Hskip as [_ Hskip]. eauto.
Qed.

(** A value [get_int_input] returns was accepted from one of the lines. *)
Lemma get_int_input_accepted (prompt_text default_val_str : string)
    (min_val max_val : option Z) (lines out : list string)
    (v : Z) (rest out' : list string) :
  get_int_input py_int prompt_text default_val_str min_val max_val lines out
    = Some (v, rest, out') ->
  exists line, line ∈ lines /\
               accepted_int py_int default_val_str min_val max_val line = Some v.
Proof.
  revert out. induction lines as [|l lines IH]; intros out; [done|].
  pose proof (get_int_input_cons prompt_text default_val_str min_val max_val
                l lines out) as Hl.
  destruct (accepted_int py_int default_val_str min_val max_val l) as [w|] eqn:Hacc;
    destruct Hl as [out1 Hl]; rewrite Hl.
  - intros [= -> _ _]. exists l. split; [by left|done].
  - intros H. apply IH in H as (line & Hin & H). exists line. split; [by right|done].
Qed.

(** X1: a value [get_int_input] returns respects the bounds it was given. *)
Theorem get_int_input_in_bounds (prompt_text default_val_str : string)
    (min_val max_val : option Z) (lines out : list string)
    (v : Z) (rest out' : list string) :
  get_int_input py_int prompt_text default_val_str min_val max_val lines out
    = Some (v, rest, out') ->
  (forall lo, min_val = Some lo -> lo <= v) /\ (forall hi, max_val = Some hi -> v <= hi).
Proof.
  intros H. apply get_int_input_accepted in H as (line & _ & H).
  by eapply accepted_int_in_bounds.
Qed.

Lemma get_colour_input_cons (colour_name default_tint_str line : string)
    (lines out : list string) :
  match accepted_colour py_int default_tint_str line with
  | Some t =>
    exists out', get_colour_input py_int colour_name default_tint_str (line :: lines) out
                 = Some (t, lines, out')
  | None =>
    exists out', get_colour_input py_int colour_name default_tint_str (line :: lines) out
                 = get_colour_input py_int colour_name default_tint_str lines out'
  end.
Proof.
  unfold accepted_colour. cbn [get_colour_input].
  destruct (_ || _); [eauto|].
  destruct (py_int _) as [v|]; cbn [mbind option_bind]; [|eauto].
  destruct (_ && _); eauto.
Qed.

Lemma accepted_colour_valid (default_tint_str line : string) (t : tint_input) :
  accepted_colour py_int default_tint_str line = Some t -> valid_tint_input t.
Proof.
  unfold accepted_colour. destruct (_ || _); [by intros [= <-]|].
  destruct (py_int _) as [v|]; [|done]. cbn [mbind option_bind].
  destruct (_ && _) eqn:E; [|done]. intros [= <-]. simpl. lia.
Qed.

Lemma get_colour_input_accepted (colour_name default_tint_str : string)
    (lines out : list string) (t : tint_input) (rest out' : list string) :
  get_colour_input py_int colour_name default_tint_str lines out = Some (t, rest, out') ->
  exists line, line ∈ lines /\ accepted_colour py_int default_tint_str line = Some t.
Proof.
  revert out. induction lines as [|l lines IH]; intros out; [done|].
  pose proof (get_colour_input_cons colour_name default_tint_str l lines out) as Hl.
  destruct (accepted_colour py_int default_tint_str l) as [w|] eqn:Hacc;
    destruct Hl as [out1 Hl]; rewrite Hl.
  - intros [= -> _ _]. exists l. split; [by left|done].
  - intros H. apply IH in H as (line & Hin & H). exists line. split; [by right|done].
Qed.

(** X3: [get_colour_input] returns ['v'] or a tint between 0 and 100. *)
Theorem get_colour_input_valid (colour_name default_tint_str : string)
    (lines out : list string) (t : tint_input) (rest out' : list string) :
  get_colour_input py_int colour_name default_tint_str lines out = Some (t, rest, out') ->
  valid_tint_input t.
Proof.
  intros H. apply get_colour_input_accepted in H as (line & _ & H).
  by eapply accepted_colour_valid.
Qed.

End PromptFacts.

Lemma get_int_input_in_bounds_witness :
  (forall lo, Some 1 = Some lo -> lo <= 4) /\ (forall hi, Some 9 = Some hi -> 4 <= hi).
Proof.
  apply (get_int_input_in_bounds decimal_int "step" "3" (Some 1) (Some 9)
           ["12"; "x"; "4"; "5"] [] 4 ["5"]
           ["step (default: 3): "; "Value must be no more than 9.";
            "step (default: 3): "; "Invalid input. Please enter a whole number.";
            "step (default: 3): "]).
  vm_compute. reflexivity.
Defined.

Lemma get_colour_input_valid_witness : valid_tint_input (Tint 30).
Proof.
  apply (get_colour_input_valid decimal_int "Yellow" "30" ["101"; ""; "v"] [] (Tint 30)
           ["v"]
           ["Please enter % of Yellow (0-100), or 'v' if variable (default: 30): ";
            "Percentage must be between 0 and 100.";
            "Please enter % of Yellow (0-100), or 'v' if variable (default: 30): "]).
  vm_compute. reflexivity.
Defined.

(** * The interactive run against the run of answers *)

Lemma select_colour_ext (g g' : string -> tint_input) (m m' : string -> Z)
    (st : gmap string colour_input * list var_col) (c : string) :
  g c = g' c -> m c = m' c -> select_colour g m st c = select_colour g' m' st c.
Proof. intros Hg Hm. unfold select_colour. by rewrite Hg, Hm. Qed.

Lemma select_loop_ext (g g' : string -> tint_input) (m m' : string -> Z)
    (l : list string) (st : gmap string colour_input * list var_col) :
  (forall c, c ∈ l -> g c = g' c /\ m c = m' c) ->
  foldl (select_colour g m) st l = foldl (select_colour g' m') st l.
Proof.
  revert st. induction l as [|c l IH]; intros st Hl; [done|].
  cbn [foldl]. destruct (Hl c) as [Hg Hm]; [by left|].
  rewrite (select_colour_ext g g' m m') by done.
  apply IH. intros x Hx. apply Hl. by right.
Qed.

Section InteractiveRun.
Variable py_int : string -> option Z.

(** A turn of the interactive loop is a turn of [select_colour] on the
    answers the two prompts returned. *)
Lemma ask_colour_step (ci ci' : gmap string colour_input) (vd vd' : list var_col)
    (lines out lines' out' : list string) (c : string) :
  ask_colour py_int (ci, vd, lines, out) c = Some (ci', vd', lines', out') ->
  exists t med,
    valid_tint_input t /\ 0 <= med <= 100 /\
    select_colour (fun _ => t) (fun _ => med) (ci, vd) c = (ci', vd').
Proof.
  unfold ask_colour, select_colour.
  destruct (get_colour_input _ _ _ _ _) as [[[t lines1] out1]|] eqn:Ht; [|done].
  cbn [mbind option_bind].
  apply get_colour_input_accepted in Ht as (line & _ & Ht).
  apply accepted_colour_valid in Ht.
  destruct t as [|n].
  - destruct (length vd <? 2)%nat.
    + destruct (get_int_input _ _ _ _ _ _ _) as [[[med lines2] out2]|] eqn:Hm; [|done].
      cbn [mbind option_bind]. intros [= <- <- _ _].
      apply get_int_input_accepted in Hm as (l & _ & Hm).
      apply accepted_int_in_bounds in Hm as [Hlo Hhi].
      exists V, med. repeat split; [by apply Hlo | by apply Hhi].
    + intros [= <- <- _ _]. exists V, 0. split; [done|]. split; [lia|done].
  - intros [= <- <- _ _]. exists (Tint n), 0. split; [done|]. split; [lia|done].
Qed.

Lemma ask_colours_oracle (l : list string) (ci ci' : gmap string colour_input)
    (vd vd' : list var_col) (lines out lines' out' : list string) :
  NoDup l ->
  foldlM (ask_colour py_int) (ci, vd, lines, out) l = Some (ci', vd', lines', out') ->
  exists (g : string -> tint_input) (m : string -> Z),
    (forall c, valid_tint_input (g c)) /\ (forall c, 0 <= m c <= 100) /\
    foldl (select_colour g m) (ci, vd) l = (ci', vd').
Proof.
  revert ci vd lines out. induction l as [|c l IH]; intros ci vd lines out Hnd.
  - intros [= <- <- _ _]. exists (fun _ => Tint 0), (fun _ => 0).
    repeat split; simpl; lia.
  - apply NoDup_cons in Hnd as [Hc Hnd]. cbn [foldlM].
    destruct (ask_colour py_int (ci, vd, lines, out) c)
      as [[[[ci1 vd1] lines1] out1]|] eqn:Hask; [|done].
    cbn [mbind option_bind]. intros Hrest.
    apply ask_colour_step in Hask as (t & med & Ht & Hmed & Hstep).
    apply IH in Hrest as (g & m & Hg & Hm & Hloop); [|done].
    exists (fun x => if decide (x = c) then t else g x),
           (fun x => if decide (x = c) then med else m x).
    split; [intros x; by destruct (decide (x = c))|].
    split; [intros x; by destruct (decide (x = c))|].
    cbn [foldl].
    rewrite (select_colour_ext _ (fun _ => t) _ (fun _ => med))
      by (by destruct (decide (c = c))).
    rewrite Hstep, <- Hloop. apply select_loop_ext.
    intros x Hx. destruct (decide (x = c)) as [->|]; done.
Qed.

(** X4: the colours and variable channels the interactive loop of lines
    101-123 ends with are those of [select_colours] on some answers, every
    colour answer being ['v'] or a tint in [0,100] and every median in
    [0,100]. *)
Theorem interactive_selection_is_select_colours (lines out lines' out' : list string)
    (ci : gmap string colour_input) (vd : list var_col) :
  foldlM (ask_colour py_int) (∅, [], lines, out) colour_order
    = Some (ci, vd, lines', out') ->
  exists (g : string -> tint_input) (m : string -> Z),
    (forall c, valid_tint_input (g c)) /\ (forall c, 0 <= m c <= 100) /\
    select_colours g m = (ci, vd).
Proof. intros H. by apply ask_colours_oracle in H; [|apply colour_order_NoDup]. Qed.

(** X5: an input stage that completes has a step between 1 and 9, at most
    two variable channels with medians in [0,100], each starting where
    [sweep_start] puts it, and the eleven tints of each lie in [0,100], so
    that the clamp on access changes none of them. *)
Theorem read_inputs_sweeps_in_range (lines out lines' out' : list string) (i : inputs) :
  read_inputs py_int lines out = Some (i, lines', out') ->
  1 <= in_step_val i <= 9 /\
  (length (in_variable_colours_data i) <= 2)%nat /\
  forall v, v ∈ in_variable_colours_data i ->
    0 <= median_tint v <= 100 /\
    start_val v = sweep_start (median_tint v) (in_step_val i) /\
    forall k, 0 <= k <= 10 ->
      0 <= start_val v + k * in_step_val i <= 100 /\
      clamped_tint (start_val v) (in_step_val i) k = start_val v + k * in_step_val i.
Proof.
  unfold read_inputs.
  destruct (get_int_input _ _ _ _ _ _ _) as [[[w l1] o1]|]; [|done].
  cbn [mbind option_bind].
  destruct (get_int_input _ _ _ _ _ _ _) as [[[h l2] o2]|]; [|done].
  cbn [mbind option_bind].
  destruct (foldlM _ _ _) as [[[[ci vd] l3] o3]|] eqn:Hsel; [|done].
  cbn [mbind option_bind].
  destruct (get_int_input _ _ _ _ _ _ _) as [[[s l4] o4]|] eqn:Hstep; [|done].
  cbn [mbind option_bind]. intros [= <- _ _]. cbn [in_step_val in_variable_colours_data].
  apply get_int_input_accepted in Hstep as (line & _ & Hstep).
  apply accepted_int_in_bounds in Hstep as [Hlo Hhi].
  specialize (Hlo 1 eq_refl). specialize (Hhi 9 eq_refl).
  apply ask_colours_oracle in Hsel as (g & m & Hg & Hm & Hsel);
    [|apply colour_order_NoDup].
  fold (select_colours g m) in Hsel.
  assert (vd = (select_colours g m).2) as -> by by rewrite Hsel.
  split; [done|]. split.
  - unfold calculate_start_values. rewrite length_fmap.
    rewrite <- (length_fmap name), select_colours_names, length_take. lia.
  - intros v Hv.
    pose proof (select_loop_medians g m colour_order ∅ [] (Forall_nil_2 _)) as Hall.
    rewrite Forall_forall in Hall.
    unfold calculate_start_values in Hv.
    apply list_elem_of_fmap in Hv as (v0 & -> & Hv0). simpl.
    specialize (Hall v0 Hv0). fold (select_colours g m) in Hall.
    rewrite Hall. split; [apply Hm|]. split; [done|].
    intros k Hk.
    pose proof (clamped_tint_unclamped (m (name v0)) s k (Hm _) (conj Hlo Hhi) Hk)
      as Hraw.
    split; [|done]. unfold clamped_tint in Hraw. lia.
Qed.

End InteractiveRun.

(** * More on overprinting *)

Lemma py_min_proper (a y y' : Q) : (y == y')%Q -> (py_min a y == py_min a y')%Q.
Proof. intros Hy. rewrite !py_min_Qmin. by apply Q.min_compat. Qed.

Lemma layer_share_nonneg (b t : Q) :
  (0 <= b)%Q -> (0 <= t)%Q -> (0 <= b * (t / inject_Z 100) * inject_Z 100)%Q.
Proof. intros Hb Ht. rewrite layer_share. by apply Qmult_le_0_compat. Qed.

Lemma layer_share_mono (b t t' : Q) :
  (0 <= b)%Q -> (t <= t')%Q ->
  (b * (t / inject_Z 100) * inject_Z 100 <= b * (t' / inject_Z 100) * inject_Z 100)%Q.
Proof.
  intros Hb Ht. rewrite !layer_share, !(Qmult_comm b). by apply Qmult_le_compat_r.
Qed.

(** A saturating addition is monotone in what it starts from and in what
    it adds. *)
Lemma saturating_add_mono (c c' x x' : Q) :
  (c <= c')%Q -> (x <= x')%Q ->
  (py_min (inject_Z 100) (c + x) <= py_min (inject_Z 100) (c' + x'))%Q.
Proof.
  intros Hc Hx.
  destruct (py_min_cases (inject_Z 100) (c + x)%Q) as [[H1 ->]|[H1 ->]];
  destruct (py_min_cases (inject_Z 100) (c' + x')%Q) as [[H2 ->]|[H2 ->]];
    unfold inject_Z in *; lra.
Qed.

Lemma saturating_add_twice (c x1 x2 : Q) :
  (0 <= x1)%Q -> (0 <= x2)%Q ->
  (py_min (inject_Z 100) (py_min (inject_Z 100) (c + x1) + x2)
   == py_min (inject_Z 100) (c + (x1 + x2)))%Q.
Proof.
  intros H1 H2.
  destruct (py_min_cases (inject_Z 100) (c + x1)%Q) as [[K1 ->]|[K1 ->]];
  match goal with
  | |- (py_min ?a ?y == py_min ?a ?z)%Q =>
    destruct (py_min_cases a y) as [[K2 ->]|[K2 ->]];
    destruct (py_min_cases a z) as [[K3 ->]|[K3 ->]]
  end; unfold inject_Z in *; lra.
Qed.

(** X6: a layer with a non-negative base and tint lowers no component of a
    colour whose components are at most 100: what is saturated stays
    saturated. *)
Theorem overprint_layer_never_lowers (current base : cmyk Q) (tint : Q) :
  cmyk_le current (100, 100, 100, 100)%Q -> at_least 0 base -> (0 <= tint)%Q ->
  cmyk_le current (overprint_layer current base tint).
Proof.
  destruct current as [[[c0 c1] c2] c3], base as [[[b0 b1] b2] b3].
  intros (H0 & H1 & H2 & H3) (B0 & B1 & B2 & B3) Ht.
  rewrite overprint_layer_components. unfold cmyk_le.
  repeat split;
    match goal with
    | |- (?c <= py_min ?a (?c + ?x))%Q =>
      assert (0 <= x)%Q by (by apply layer_share_nonneg);
      destruct (py_min_cases a (c + x)%Q) as [[K ->]|[K ->]]
    end; unfold inject_Z in *; lra.
Qed.

Lemma overprint_layer_never_lowers_witness :
  cmyk_le (30, 0, 95, 100)%Q (overprint_layer (30, 0, 95, 100)%Q (0, 0.7, 0.7, 0)%Q 50%Q).
Proof.
  apply overprint_layer_never_lowers; unfold cmyk_le, at_least, Qle; simpl; lia.
Defined.

(** X7: the same channel overprinted twice is the channel overprinted once
    at the sum of the two tints (non-negative base and tints). *)
Theorem overprint_layer_accumulates (current base : cmyk Q) (tint1 tint2 : Q) :
  at_least 0 base -> (0 <= tint1)%Q -> (0 <= tint2)%Q ->
  cmyk_equiv (overprint_layer (overprint_layer current base tint1) base tint2)
             (overprint_layer current base (tint1 + tint2)%Q).
Proof.
  destruct current as [[[c0 c1] c2] c3], base as [[[b0 b1] b2] b3].
  intros (B0 & B1 & B2 & B3) Ht1 Ht2.
  rewrite !overprint_layer_components. unfold cmyk_equiv.
  repeat split;
    (rewrite saturating_add_twice by (by apply layer_share_nonneg);
     apply py_min_proper; unfold inject_Z; field).
Qed.

Lemma overprint_layer_accumulates_witness :
  cmyk_equiv
    (overprint_layer (overprint_layer (0, 20, 0, 0)%Q (0, 0.7, 0.7, 0)%Q 60%Q)
                     (0, 0.7, 0.7, 0)%Q 70%Q)
    (overprint_layer (0, 20, 0, 0)%Q (0, 0.7, 0.7, 0)%Q (60 + 70)%Q).
Proof.
  apply overprint_layer_accumulates; unfold at_least, Qle; simpl; lia.
Defined.

(** X8: a layer at tint 0 only caps: each component comes back as the
    smaller of itself and 100, whatever the base; so a colour within the
    cap comes back unchanged. *)
Theorem overprint_layer_zero_tint (current base : cmyk Q) :
  cmyk_equiv (overprint_layer current base 0%Q) (capped current) /\
  (cmyk_le current (100, 100, 100, 100)%Q ->
   cmyk_equiv (overprint_layer current base 0%Q) current).
Proof.
  destruct current as [[[c0 c1] c2] c3], base as [[[b0 b1] b2] b3].
  rewrite overprint_layer_components.
  assert (forall c b : Q,
            (py_min (inject_Z 100) (c + b * (0 / inject_Z 100) * inject_Z 100)
             == Qmin 100 c)%Q) as Hcap.
  { intros c b. rewrite py_min_Qmin. apply Q.min_compat; [reflexivity|].
    unfold inject_Z. field. }
  split.
  - unfold cmyk_equiv, capped. repeat split; apply Hcap.
  - intros (H0 & H1 & H2 & H3). unfold cmyk_equiv.
    repeat split; rewrite Hcap; by apply Q.min_r.
Qed.

Lemma overprint_layer_zero_tint_witness :
  cmyk_equiv (overprint_layer (30, 0, 95, 100)%Q (0, 0.7, 0.7, 0)%Q 0%Q) (30, 0, 95, 100)%Q.
Proof.
  apply (proj2 (overprint_layer_zero_tint (30, 0, 95, 100)%Q (0, 0.7, 0.7, 0)%Q)).
  unfold cmyk_le, Qle; simpl; lia.
Defined.

Lemma overprint_layers_any_order_witness :
  cmyk_equiv
    (overprint_layers (60, 0, 30, 0)%Q
       [((0, 0.7, 0.7, 0)%Q, 90%Q); ((0.7, 0.7, 0, 0)%Q, 80%Q); ((0, 0, 0, 0.7)%Q, 40%Q)])
    (overprint_layers (60, 0, 30, 0)%Q
       [((0.7, 0.7, 0, 0)%Q, 80%Q); ((0, 0.7, 0.7, 0)%Q, 90%Q); ((0, 0, 0, 0.7)%Q, 40%Q)]).
Proof.
  apply overprint_layers_any_order.
  - apply perm_swap.
  - repeat (apply Forall_cons; split; [unfold nonneg_layer, at_least, Qle; simpl; lia|]).
    apply Forall_nil_2.
Defined.

(** * The colour of a cell *)

Lemma cmyk_le_refl (p : cmyk Q) : cmyk_le p p.
Proof. destruct p as [[[c0 c1] c2] c3]. unfold cmyk_le. repeat split; apply Qle_refl. Qed.

Lemma inject_Z_nonneg (z : Z) : 0 <= z -> (0 <= inject_Z z)%Q.
Proof. intros Hz. unfold Qle. simpl. lia. Qed.

Lemma CMYK_DEFINITIONS_within (c : string) (base : cmyk Q) :
  CMYK_DEFINITIONS !! c = Some base -> within 0 1 base.
Proof.
  unfold CMYK_DEFINITIONS. intros H. apply elem_of_list_to_map_2 in H.
  rewrite !elem_of_cons in H.
  destruct H as [H|[H|[H|[H|[H|[H|[H|H]]]]]]]; [..|by apply elem_of_nil in H];
    injection H as _ ->; unfold within, Qle; simpl; lia.
Qed.

Lemma within_at_least (hi : Q) (p : cmyk Q) : within 0 hi p -> at_least 0 p.
Proof. destruct p as [[[c0 c1] c2] c3]. unfold within, at_least. tauto. Qed.

Lemma overprint_layer_within (current base : cmyk Q) (tint : Q) :
  within 0 100 current -> at_least 0 base -> (0 <= tint)%Q ->
  within 0 100 (overprint_layer current base tint).
Proof.
  destruct current as [[[c0 c1] c2] c3], base as [[[b0 b1] b2] b3].
  intros (H0 & H1 & H2 & H3) (B0 & B1 & B2 & B3) Ht.
  rewrite overprint_layer_components. unfold within.
  repeat split; apply saturating_add_range; lra.
Qed.

Lemma overprint_layer_mono (p q base : cmyk Q) (tint tint' : Q) :
  cmyk_le p q -> at_least 0 base -> (tint <= tint')%Q ->
  cmyk_le (overprint_layer p base tint) (overprint_layer q base tint').
Proof.
  destruct p as [[[p0 p1] p2] p3], q as [[[q0 q1] q2] q3], base as [[[b0 b1] b2] b3].
  intros (H0 & H1 & H2 & H3) (B0 & B1 & B2 & B3) Ht.
  rewrite !overprint_layer_components. unfold cmyk_le.
  repeat split; apply saturating_add_mono; try done; by apply layer_share_mono.
Qed.

Lemma add_process_tint_within (c : string) (current : cmyk Q) (tint : Q) :
  within 0 100 current -> (0 <= tint)%Q ->
  within 0 100 (add_process_tint c current tint).
Proof.
  destruct current as [[[c0 c1] c2] c3]. intros (H0 & H1 & H2 & H3) Ht.
  assert (forall x : Q, (0 <= x)%Q -> (0 <= py_min (inject_Z 100) (x + tint) <= 100)%Q)
    as Hsat.
  { intros x Hx.
    destruct (py_min_cases (inject_Z 100) (x + tint)%Q) as [[K ->]|[K ->]];
      unfold inject_Z in *; lra. }
  unfold add_process_tint.
  repeat match goal with
         | |- context [String.eqb ?a ?b] => destruct (String.eqb a b)
         end; unfold within; repeat split; try tauto; apply Hsat; tauto.
Qed.

Lemma foldlM_invariant {A B : Type} (P : A -> Prop) (f : A -> B -> option A)
    (l : list B) (a r : A) :
  (forall a b a', P a -> f a b = Some a' -> P a') ->
  P a -> foldlM f a l = Some r -> P r.
Proof.
  intros Hf. revert a. induction l as [|b l IH]; intros a Ha; simpl.
  - by intros [= <-].
  - destruct (f a b) as [a'|] eqn:E; [|done]. simpl. apply IH. by eapply Hf.
Qed.

Section CellFacts.
Variable colour_inputs : gmap string colour_input.
Variable variable_colours_data : list var_col.
Variable step_val : Z.

Lemma process_layer_within (current q : cmyk Q) (c : string) :
  within 0 100 current -> process_layer colour_inputs current c = Some q ->
  within 0 100 q.
Proof.
  intros Hcur. unfold process_layer.
  destruct (colour_inputs !! c) as [e|]; [|done]. cbn [mbind option_bind].
  destruct (value e) as [|t]; [by intros [= <-]|].
  destruct (Z.gtb_spec t 0); intros [= <-]; [|done].
  apply add_process_tint_within; [done|]. apply inject_Z_nonneg. lia.
Qed.

Lemma spot_layer_within (current q : cmyk Q) (c : string) :
  within 0 100 current -> spot_layer colour_inputs current c = Some q ->
  within 0 100 q.
Proof.
  intros Hcur. unfold spot_layer.
  destruct (colour_inputs !! c) as [e|]; [|done]. cbn [mbind option_bind].
  destruct (value e) as [|t]; [by intros [= <-]|].
  destruct (Z.gtb_spec t 0); [|by intros [= <-]].
  destruct (CMYK_DEFINITIONS !! c) as [base|] eqn:Hbase; [|done].
  cbn [mbind option_bind]. intros [= <-].
  apply overprint_layer_within; [done| |apply inject_Z_nonneg; lia].
  eapply within_at_least, CMYK_DEFINITIONS_within, Hbase.
Qed.

Lemma clamped_tint_range (start pos : Z) : 0 <= clamped_tint start step_val pos <= 100.
Proof. unfold clamped_tint. lia. Qed.

Lemma clamped_tint_mono (start pos pos' : Z) :
  0 <= step_val -> pos <= pos' ->
  clamped_tint start step_val pos <= clamped_tint start step_val pos'.
Proof. intros Hs Hp. unfold clamped_tint. nia. Qed.

Lemma variable_layer_within (axis : nat) (pos : Z) (current q : cmyk Q) :
  within 0 100 current ->
  variable_layer variable_colours_data axis step_val pos current = Some q ->
  within 0 100 q.
Proof.
  intros Hcur. unfold variable_layer.
  destruct (variable_colours_data !! axis) as [v|]; [|by intros [= <-]].
  destruct (CMYK_DEFINITIONS !! name v) as [base|] eqn:Hbase; [|done].
  cbn [mbind option_bind]. intros [= <-].
  apply overprint_layer_within; [done| |apply inject_Z_nonneg, clamped_tint_range].
  eapply within_at_least, CMYK_DEFINITIONS_within, Hbase.
Qed.

Lemma variable_layer_mono (axis : nat) (pos pos' : Z) (current current' q q' : cmyk Q) :
  0 <= step_val -> pos <= pos' -> cmyk_le current current' ->
  variable_layer variable_colours_data axis step_val pos current = Some q ->
  variable_layer variable_colours_data axis step_val pos' current' = Some q' ->
  cmyk_le q q'.
Proof.
  intros Hs Hp Hcur. unfold variable_layer.
  destruct (variable_colours_data !! axis) as [v|]; [|by intros [= <-] [= <-]].
  destruct (CMYK_DEFINITIONS !! name v) as [base|] eqn:Hbase; [|done].
  cbn [mbind option_bind]. intros [= <-] [= <-].
  apply overprint_layer_mono; [done| |].
  - eapply within_at_least, CMYK_DEFINITIONS_within, Hbase.
  - rewrite <- Zle_Qle. by apply clamped_tint_mono.
Qed.

Lemma cell_cmyk_within (k_row i_col : Z) (q : cmyk Q) :
  cell_cmyk colour_inputs variable_colours_data step_val k_row i_col = Some q ->
  within 0 100 q.
Proof.
  unfold cell_cmyk.
  destruct (foldlM (process_layer colour_inputs) _ _) as [q1|] eqn:H1; [|done].
  cbn [mbind option_bind].
  destruct (foldlM (spot_layer colour_inputs) _ _) as [q2|] eqn:H2; [|done].
  cbn [mbind option_bind].
  destruct (variable_layer _ 0 _ _ _) as [q3|] eqn:H3; [|done].
  cbn [mbind option_bind]. intros H4.
  apply (foldlM_invariant (within 0 100)) in H1;
    [|intros a b a' Ha; by apply process_layer_within
     |unfold within, Qle; simpl; lia].
  apply (foldlM_invariant (within 0 100)) in H2;
    [|intros a b a' Ha; by apply spot_layer_within|done].
  apply variable_layer_within in H3; [|done].
  by apply variable_layer_within in H4.
Qed.

(** X9: whatever the answers, the fill colour of every cell the program
    draws has its four components between 0 and 1. *)
Theorem fill_colour_in_unit_range (docwidthpts docheightpts : Q) (k_row i_col : Z)
    (cmds : list (command Q)) :
  draw_cell docwidthpts docheightpts colour_inputs variable_colours_data
            step_val k_row i_col = Some cmds ->
  exists final_c final_m final_y final_k,
    cmds !! 0%nat = Some (SetFillColor final_c final_m final_y final_k) /\
    within 0 1 (final_c, final_m, final_y, final_k).
Proof.
  unfold draw_cell.
  destruct (cell_cmyk _ _ _ _ _) as [[[[c0 c1] c2] c3]|] eqn:Hq; [|done].
  cbn [mbind option_bind]. intros [= <-].
  apply cell_cmyk_within in Hq as (H0 & H1 & H2 & H3).
  do 4 eexists. split; [reflexivity|].
  unfold within. cbn [div of_int Q_Number]. unfold inject_Z.
  repeat split;
    first [ apply Qle_shift_div_l; [reflexivity|lra]
          | apply Qle_shift_div_r; [reflexivity|lra] ].
Qed.

(** X10: with a step that is not negative, no component of the colour
    gets smaller from a cell to a cell further right or further up. *)
Theorem cell_colour_monotone (k_row k_row' i_col i_col' : Z) (q q' : cmyk Q) :
  0 <= step_val -> k_row <= k_row' -> i_col <= i_col' ->
  cell_cmyk colour_inputs variable_colours_data step_val k_row i_col = Some q ->
  cell_cmyk colour_inputs variable_colours_data step_val k_row' i_col' = Some q' ->
  cmyk_le q q'.
Proof.
  intros Hs Hk Hi. unfold cell_cmyk.
  destruct (foldlM (process_layer colour_inputs) _ _) as [q1|]; [|done].
  cbn [mbind option_bind].
  destruct (foldlM (spot_layer colour_inputs) _ _) as [q2|]; [|done].
  cbn [mbind option_bind].
  destruct (variable_layer _ 0 _ i_col _) as [q3|] eqn:H3; [|done].
  destruct (variable_layer _ 0 _ i_col' _) as [q3'|] eqn:H3'; [|done].
  cbn [mbind option_bind]. intros H4 H4'.
  eapply (variable_layer_mono 1 k_row k_row'); [done..| |exact H4|exact H4'].
  eapply (variable_layer_mono 0 i_col i_col'); [done..| |exact H3|exact H3'].
  apply cmyk_le_refl.
Qed.

End CellFacts.

(** * What the selection stores *)

Section SelectionStore.
Variable g : string -> tint_input.
Variable m : string -> Z.

(** The record kept for a variable colour. *)
Lemma select_loop_data (l : list string) (ci : gmap string colour_input)
    (vd : list var_col) :
  (foldl (select_colour g m) (ci, vd) l).2
  = vd ++ ((fun c => {| name := c; median_tint := m c; start_val := 0 |})
             <$> take (2 - length vd) (filter (fun c0 : string => g c0 = V) l)).
Proof.
  revert ci vd. induction l as [|c0 l IH]; intros ci vd.
  - simpl. by rewrite filter_nil, take_nil, app_nil_r.
  - cbn [foldl]. unfold select_colour at 2.
    destruct (decide (g c0 = V)) as [HV|HV].
    + rewrite filter_cons_True by done. rewrite HV.
      destruct (Nat.ltb_spec (length vd) 2) as [Hlt|Hge].
      * rewrite IH, length_app, <- app_assoc. simpl.
        replace (2 - length vd)%nat with (S (2 - (length vd + 1)))%nat by lia.
        done.
      * rewrite IH. by replace (2 - length vd)%nat with 0%nat by lia.
    + rewrite filter_cons_False by done.
      destruct (g c0); [done|]. by rewrite IH.
Qed.

(** A fixed answer is stored as it was given. *)
Lemma select_loop_fixed (l : list string) (ci : gmap string colour_input)
    (vd : list var_col) (c : string) (n : Z) :
  NoDup l -> c ∈ l -> g c = Tint n ->
  (foldl (select_colour g m) (ci, vd) l).1 !! c = Some {| value := Tint n; median := 0 |}.
Proof.
  revert ci vd. induction l as [|c0 l IH]; intros ci vd Hnd Hc Hg.
  - by apply elem_of_nil in Hc.
  - apply NoDup_cons in Hnd as [Hc0 Hnd]. cbn [foldl].
    apply elem_of_cons in Hc as [->|Hc].
    + unfold select_colour at 2. rewrite Hg.
      rewrite select_loop_other by done. by rewrite lookup_insert_eq.
    + destruct (select_colour g m (ci, vd) c0) as [ci1 vd1]. by apply IH.
Qed.

(** One of the first two colours marked variable is stored as ['v'] with
    the median that was asked for it. *)
Lemma select_loop_axis (l : list string) (ci : gmap string colour_input)
    (vd : list var_col) (c : string) :
  NoDup l ->
  c ∈ take (2 - length vd) (filter (fun c0 : string => g c0 = V) l) ->
  (foldl (select_colour g m) (ci, vd) l).1 !! c = Some {| value := V; median := m c |}.
Proof.
  revert ci vd. induction l as [|c0 l IH]; intros ci vd Hnd Hc.
  - rewrite filter_nil, take_nil in Hc. by apply elem_of_nil in Hc.
  - apply NoDup_cons in Hnd as [Hc0 Hnd]. cbn [foldl]. unfold select_colour at 2.
    destruct (decide (g c0 = V)) as [HV|HV].
    + rewrite filter_cons_True in Hc by done. rewrite HV.
      destruct (Nat.ltb_spec (length vd) 2) as [Hlt|Hge].
      * replace (2 - length vd)%nat with (S (2 - (length vd + 1)))%nat in Hc by lia.
        simpl in Hc. apply elem_of_cons in Hc as [->|Hc].
        -- rewrite select_loop_other by done.
           by rewrite lookup_alter_eq, lookup_insert_eq.
        -- apply IH; [done|]. by rewrite length_app.
      * replace (2 - length vd)%nat with 0%nat in Hc by lia.
        by apply elem_of_nil in Hc.
    + rewrite filter_cons_False in Hc by done.
      destruct (g c0); [done|]. by apply IH.
Qed.

(** X13: the variable channels recorded are the first two colours marked
    ['v'], in selection order, each with the median asked for it and a
    start value still at 0; so there are never more than two. *)
Theorem select_colours_variables :
  (select_colours g m).2
  = (fun c => {| name := c; median_tint := m c; start_val := 0 |})
      <$> take 2 (marked_variable g) /\
  (length (select_colours g m).2 <= 2)%nat.
Proof.
  assert ((select_colours g m).2
          = (fun c => {| name := c; median_tint := m c; start_val := 0 |})
              <$> take 2 (marked_variable g)) as H.
  { unfold select_colours. by rewrite select_loop_data. }
  split; [done|]. rewrite H, length_fmap, length_take. lia.
Qed.

(** X14: after the selection a colour answered with a tint holds that
    tint, and each of the first two colours answered ['v'] holds ['v'] and
    its median. *)
Theorem select_colours_stores_answers (c : string) :
  c ∈ colour_order ->
  (forall n, g c = Tint n ->
     (select_colours g m).1 !! c = Some {| value := Tint n; median := 0 |}) /\
  (c ∈ take 2 (marked_variable g) ->
     (select_colours g m).1 !! c = Some {| value := V; median := m c |}).
Proof.
  intros Hc. split.
  - intros n Hn. by apply select_loop_fixed; [apply colour_order_NoDup|..].
  - intros Hax. by apply select_loop_axis; [apply colour_order_NoDup|].
Qed.

(** What the title and the cell see of a colour is what the answer shows:
    a colour answered ['v'] is stored as ['v'] or as 0. *)
Lemma select_colours_shown (c : string) :
  c ∈ colour_order ->
  exists e, (select_colours g m).1 !! c = Some e /\
            shown_tint (value e) = shown_tint (g c).
Proof.
  intros Hc. destruct (g c) as [|n] eqn:Hg.
  - assert (c ∈ marked_variable g) as Hm.
    { unfold marked_variable. by apply list_elem_of_filter. }
    rewrite <- (take_drop 2 (marked_variable g)) in Hm.
    apply elem_of_app in Hm as [Hm|Hm].
    + eexists. split; [by apply select_loop_axis; [apply colour_order_NoDup|]|done].
    + apply (select_colours_downgrades g m) in Hm.
      destruct ((select_colours g m).1 !! c) as [e|]; [|done].
      exists e. split; [done|]. by injection Hm as ->.
  - eexists. split; [by apply select_loop_fixed; [apply colour_order_NoDup|..]|done].
Qed.

End SelectionStore.

Lemma select_colours_stores_answers_witness :
  (forall n, default_colour_input "Yellow" = Tint n ->
     (select_colours default_colour_input default_median_input).1 !! "Yellow"
     = Some {| value := Tint n; median := 0 |}) /\
  ("Yellow" ∈ take 2 (marked_variable default_colour_input) ->
     (select_colours default_colour_input default_median_input).1 !! "Yellow"
     = Some {| value := V; median := default_median_input "Yellow" |}).
Proof.
  apply select_colours_stores_answers.
  unfold colour_order. rewrite !elem_of_cons. auto.
Defined.

(** * Fewer than two variable colours *)

Section FewVariables.
Context {num : Type} {N : Number num}.
Variable g : string -> tint_input.
Variable m : string -> Z.
Variable step_val : Z.

Lemma planned_inputs_length :
  length (planned_inputs g m step_val).2 = length (take 2 (marked_variable g)).
Proof.
  rewrite planned_inputs_snd. unfold calculate_start_values.
  by rewrite length_fmap, <- (length_fmap name), select_colours_names.
Qed.

(** X11: when fewer than two colours are answered ['v'] the colour of a
    cell does not depend on its row and no value label of the second axis
    is drawn; when none is, it depends on the column neither, and no label
    of the first axis is drawn. *)
Theorem few_variables_few_axes (docwidthpts docheightpts : num) :
  ((length (marked_variable g) < 2)%nat ->
   draw_y_axis_values docheightpts (planned_inputs g m step_val).2 step_val = [] /\
   forall k_row k_row' i_col,
     cell_cmyk (num:=num) (planned_inputs g m step_val).1
               (planned_inputs g m step_val).2 step_val k_row i_col
     = cell_cmyk (planned_inputs g m step_val).1
                 (planned_inputs g m step_val).2 step_val k_row' i_col) /\
  (marked_variable g = [] ->
   draw_x_axis docwidthpts docheightpts (planned_inputs g m step_val).2 step_val = [] /\
   forall k_row k_row' i_col i_col',
     cell_cmyk (num:=num) (planned_inputs g m step_val).1
               (planned_inputs g m step_val).2 step_val k_row i_col
     = cell_cmyk (planned_inputs g m step_val).1
                 (planned_inputs g m step_val).2 step_val k_row' i_col').
Proof.
  pose proof planned_inputs_length as Hlen. rewrite length_take in Hlen.
  split.
  - intros Hfew.
    assert ((planned_inputs g m step_val).2 !! 1%nat = None) as Hnone
      by (apply lookup_ge_None; lia).
    split.
    + unfold draw_y_axis_values. by rewrite Hnone.
    + intros k_row k_row' i_col. unfold cell_cmyk, variable_layer. by rewrite Hnone.
  - intros Hno. rewrite Hno in Hlen. simpl in Hlen.
    apply nil_length_inv in Hlen.
    split.
    + unfold draw_x_axis. by rewrite Hlen.
    + intros k_row k_row' i_col i_col'. unfold cell_cmyk, variable_layer.
      by rewrite Hlen.
Qed.

End FewVariables.

Lemma few_variables_few_axes_witness :
  draw_y_axis_values (docpts 316 : Q)
    (planned_inputs (fun _ => Tint 20) default_median_input 3).2 3 = [] /\
  forall k_row k_row' i_col,
    cell_cmyk (num:=Q) (planned_inputs (fun _ => Tint 20) default_median_input 3).1
              (planned_inputs (fun _ => Tint 20) default_median_input 3).2 3 k_row i_col
    = cell_cmyk (planned_inputs (fun _ => Tint 20) default_median_input 3).1
                (planned_inputs (fun _ => Tint 20) default_median_input 3).2 3
                k_row' i_col.
Proof.
  apply (proj1 (few_variables_few_axes (fun _ => Tint 20) default_median_input 3
                  (docpts 444) (docpts 316))).
  vm_compute. lia.
Defined.

(** * The sweep around the median *)

(** X15: for a median in [0,100] and a step in [1,9] the median lies
    between the first and the last of the eleven tints; it is the middle
    one when the sweep fits around it, and otherwise the sweep ends at 100
    or starts at 0. *)
Theorem sweep_covers_median (M S : Z) :
  0 <= M <= 100 -> 1 <= S <= 9 ->
  sweep_start M S <= M <= sweep_start M S + 10 * S /\
  (5 * S <= M <= 100 - 5 * S -> sweep_start M S + 5 * S = M) /\
  (100 < M + 5 * S -> sweep_start M S + 10 * S = 100) /\
  (M < 5 * S -> sweep_start M S = 0).
Proof.
  intros HM HS.
  destruct (sweep_start_cases M S HM HS) as [[? ->]|[[? ->]|(? & ? & ->)]]; lia.
Qed.

Lemma sweep_covers_median_witness :
  sweep_start 98 9 <= 98 <= sweep_start 98 9 + 10 * 9 /\
  (5 * 9 <= 98 <= 100 - 5 * 9 -> sweep_start 98 9 + 5 * 9 = 98) /\
  (100 < 98 + 5 * 9 -> sweep_start 98 9 + 10 * 9 = 100) /\
  (98 < 5 * 9 -> sweep_start 98 9 = 0).
Proof. apply sweep_covers_median; lia. Defined.

(** * The grid on the page *)

Lemma MM_TO_POINTS_Q : MM_TO_POINTS = (283464567 # 100000000)%Q.
Proof. reflexivity. Qed.

(** X16: on a page whose boxes have a width and a height that are not
    negative, every cell lies between the start offsets of the page, and
    a cell further right, or further up, begins at least one spacing after
    the other ends. *)
Theorem grid_stays_on_page (W H : Q) (k_row i_col : Z) :
  (0 <= box_width W)%Q -> (0 <= box_height H)%Q ->
  0 <= k_row <= 10 -> 0 <= i_col <= 10 ->
  (X_REF_START_OFFSET <= box_x_bl W i_col /\
   box_x_bl W i_col + box_width W <= W - X_REF_START_OFFSET /\
   Y_REF_START_OFFSET <= box_y_bl H k_row /\
   box_y_bl H k_row + box_height H <= H - Y_REF_START_OFFSET)%Q /\
  (forall i_col', i_col < i_col' ->
     (box_x_bl W i_col + box_width W + BOX_SPACING <= box_x_bl W i_col')%Q) /\
  (forall k_row', k_row < k_row' ->
     (box_y_bl H k_row + box_height H + BOX_SPACING <= box_y_bl H k_row')%Q).
Proof.
  intros HW HH Hk Hi.
  destruct (last_box_meets_margin W H) as [HlastW HlastH].
  unfold box_x_bl, box_y_bl in *. cbn [add mul of_int Q_Number] in *.
  assert (0 <= BOX_SPACING)%Q as Hsp by (rewrite BOX_SPACING_Q; lra).
  assert (forall a b : Z, a <= b -> forall d : Q, (0 <= d)%Q ->
            (inject_Z a * d <= inject_Z b * d)%Q) as Hmul.
  { intros a b Hab d Hd. apply Qmult_le_compat_r; [|done]. by rewrite <- Zle_Qle. }
  pose proof (Hmul 0 i_col (proj1 Hi) (box_width W + BOX_SPACING)%Q) as Hi0.
  pose proof (Hmul i_col 10 (proj2 Hi) (box_width W + BOX_SPACING)%Q) as Hi10.
  pose proof (Hmul 0 k_row (proj1 Hk) (box_height H + BOX_SPACING)%Q) as Hk0.
  pose proof (Hmul k_row 10 (proj2 Hk) (box_height H + BOX_SPACING)%Q) as Hk10.
  unfold inject_Z at 1 in Hi0. unfold inject_Z at 1 in Hk0.
  split; [repeat split; lra|]. split.
  - intros i' Hi'.
    pose proof (Hmul (i_col + 1) i' ltac:(lia) (box_width W + BOX_SPACING)%Q) as Hn.
    rewrite inject_Z_plus in Hn. unfold inject_Z at 2 in Hn. lra.
  - intros k' Hk'.
    pose proof (Hmul (k_row + 1) k' ltac:(lia) (box_height H + BOX_SPACING)%Q) as Hn.
    rewrite inject_Z_plus in Hn. unfold inject_Z at 2 in Hn. lra.
Qed.

Lemma grid_stays_on_page_witness :
  (X_REF_START_OFFSET <= box_x_bl (docpts 444) 10 /\
   box_x_bl (docpts 444) 10 + box_width (docpts 444) <= docpts 444 - X_REF_START_OFFSET /\
   Y_REF_START_OFFSET <= box_y_bl (docpts 316) 0 /\
   box_y_bl (docpts 316) 0 + box_height (docpts 316)
     <= docpts 316 - Y_REF_START_OFFSET)%Q /\
  (forall i_col', 10 < i_col' ->
     (box_x_bl (docpts 444) 10 + box_width (docpts 444) + BOX_SPACING
      <= box_x_bl (docpts 444) i_col')%Q) /\
  (forall k_row', 0 < k_row' ->
     (box_y_bl (docpts 316) 0 + box_height (docpts 316) + BOX_SPACING
      <= box_y_bl (docpts 316) k_row')%Q).
Proof.
  apply grid_stays_on_page; [by vm_compute | by vm_compute | lia | lia].
Defined.

(** X17: in exact arithmetic the boxes have a positive width exactly when
    the page is at least 71 mm wide, and a positive height exactly when it
    is at least 71 mm high; at 70 mm, the total margin in round numbers,
    they are already negative. *)
Theorem boxes_positive_from_71_mm (docmm : Z) :
  ((0 < box_width (docpts docmm))%Q <-> 71 <= docmm) /\
  ((0 < box_height (docpts docmm))%Q <-> 71 <= docmm).
Proof.
  assert (forall x : Q,
            (0 < (inject_Z docmm * (283464567 # 100000000) - x) / 11)%Q <->
            (x < inject_Z docmm * (283464567 # 100000000))%Q) as Hdiv.
  { intros x. split; intros Hx.
    - apply (Qmult_lt_r _ _ 11) in Hx; [|reflexivity].
      assert ((inject_Z docmm * (283464567 # 100000000) - x) / 11 * 11
              == inject_Z docmm * (283464567 # 100000000) - x)%Q as E by field.
      rewrite E in Hx. lra.
    - apply Qlt_shift_div_l; [reflexivity|]. lra. }
  assert ((198425197 # 1000000 < inject_Z docmm * (283464567 # 100000000))%Q
          <-> 71 <= docmm) as Hthr.
  { unfold Qlt, Qmult, inject_Z. simpl. lia. }
  rewrite box_width_Q, box_height_Q. unfold docpts. cbn [mul of_int Q_Number].
  rewrite MM_TO_POINTS_Q. by rewrite !Hdiv, Hthr.
Qed.

(** * Labels of the first axis and title *)

(** X18: with a first variable colour, the first axis gets its name and
    eleven value labels; the label of column [n] is at height [H - 42],
    centred between the left and the right edge of the boxes of that
    column, and shows the tint the cells of that column get from the
    colour. *)
Theorem x_axis_labels_centred (W H : Q) (variable_colours_data : list var_col)
    (step_val : Z) (v : var_col) (n : nat) :
  variable_colours_data !! 0%nat = Some v -> (n < 11)%nat ->
  length (draw_x_axis W H variable_colours_data step_val) = 12%nat /\
  draw_x_axis W H variable_colours_data step_val !! 0%nat
    = Some ((W / 2)%Q, (H - 27)%Q, name v) /\
  exists x,
    draw_x_axis W H variable_colours_data step_val !! S n
      = Some (x, (H - 42)%Q,
              pretty (clamped_tint (start_val v) step_val (Z.of_nat n))) /\
    (x == (box_x_bl W (Z.of_nat n) + (box_x_bl W (Z.of_nat n) + box_width W)) / 2)%Q.
Proof.
  intros Hv Hn. unfold draw_x_axis. rewrite Hv.
  split; [reflexivity|]. split; [reflexivity|].
  do 11 (destruct n as [|n];
         [match goal with
          | |- context [clamped_tint _ _ (Z.of_nat ?k)] =>
            exists (X_REF_START_OFFSET
                    + inject_Z (Z.of_nat k) * (box_width W + BOX_SPACING)
                    + box_width W / 2)%Q
          end;
          split; [reflexivity|];
          unfold box_x_bl; cbn [add mul div of_int Q_Number]; field|]).
  lia.
Qed.

Lemma x_axis_labels_centred_witness :
  length (draw_x_axis (docpts 444 : Q) (docpts 316)
            (planned_inputs default_colour_input default_median_input 3).2 3) = 12%nat /\
  draw_x_axis (docpts 444) (docpts 316)
    (planned_inputs default_colour_input default_median_input 3).2 3 !! 0%nat
    = Some ((docpts 444 / 2)%Q, (docpts 316 - 27)%Q,
            name {| name := "Cyan"; median_tint := 65; start_val := 50 |}) /\
  exists x,
    draw_x_axis (docpts 444) (docpts 316)
      (planned_inputs default_colour_input default_median_input 3).2 3 !! 11%nat
      = Some (x, (docpts 316 - 42)%Q,
              pretty (clamped_tint
                        (start_val {| name := "Cyan"; median_tint := 65; start_val := 50 |})
                        3 (Z.of_nat 10))) /\
    (x == (box_x_bl (docpts 444) (Z.of_nat 10)
           + (box_x_bl (docpts 444) (Z.of_nat 10) + box_width (docpts 444))) / 2)%Q.
Proof.
  apply (x_axis_labels_centred (docpts 444) (docpts 316) _ 3
           {| name := "Cyan"; median_tint := 65; start_val := 50 |} 10).
  - vm_compute. reflexivity.
  - lia.
Defined.

Lemma foldlM_Some_foldl {A B : Type} (f : A -> B -> option A) (h : A -> B -> A)
    (l : list B) (a : A) :
  (forall a b, b ∈ l -> f a b = Some (h a b)) -> foldlM f a l = Some (foldl h a l).
Proof.
  revert a. induction l as [|b l IH]; intros a Hf; [done|].
  cbn [foldlM foldl]. rewrite Hf by (by left). cbn [mbind option_bind].
  apply IH. intros a0 b0 Hb0. apply Hf. by right.
Qed.

Section TitleFacts.
Variable g : string -> tint_input.
Variable m : string -> Z.

Lemma positive_fixed_shown (e : colour_input) (c : string) :
  shown_tint (value e) = shown_tint (g c) ->
  positive_fixed e = match shown_tint (g c) with Some _ => true | None => false end.
Proof.
  intros <-. unfold positive_fixed, shown_tint.
  destruct (value e) as [|n]; [done|]. by destruct (n >? 0).
Qed.

Lemma title_entry_shown (t c : string) :
  c ∈ colour_order ->
  title_entry (select_colours g m).1 t c
  = Some (match shown_tint (g c) with
          | Some n => t +:+ " " +:+ c +:+ "=" +:+ pretty n +:+ "%"
          | None => t
          end).
Proof.
  intros Hc. destruct (select_colours_shown g m c Hc) as (e & He & Hshown).
  unfold title_entry. rewrite He. cbn [mbind option_bind]. rewrite <- Hshown.
  unfold shown_tint. destruct (value e) as [|n]; [done|]. by destruct (n >? 0).
Qed.

Lemma any_spot_fixed_shown : any_spot_fixed (select_colours g m).1 = Some (spot_shown g).
Proof.
  assert (forall c, c ∈ ["Orange"; "Violet"; "Grey"] -> c ∈ colour_order) as Hin.
  { intros c. unfold colour_order. rewrite !elem_of_cons. intuition auto 10. }
  destruct (select_colours_shown g m "Orange") as (eo & Ho & Hso);
    [apply Hin; rewrite !elem_of_cons; auto|].
  destruct (select_colours_shown g m "Violet") as (ev & Hv & Hsv);
    [apply Hin; rewrite !elem_of_cons; auto|].
  destruct (select_colours_shown g m "Grey") as (eg & Hg & Hsg);
    [apply Hin; rewrite !elem_of_cons; auto|].
  unfold any_spot_fixed, spot_shown. rewrite Ho, Hv, Hg. cbn [mbind option_bind existsb].
  rewrite (positive_fixed_shown eo "Orange"), (positive_fixed_shown ev "Violet"),
    (positive_fixed_shown eg "Grey") by done.
  destruct (shown_tint (g "Orange")); [done|].
  destruct (shown_tint (g "Violet")); [done|].
  by destruct (shown_tint (g "Grey")).
Qed.

(** X19: the title is the text the user gave (or Swatch Chart for an empty
    answer), after VOG and a blank when Orange, Violet or Grey was answered
    a positive tint, and followed, in the order of the colours, by the name
    and tint of each colour answered a positive tint; a colour answered
    ['v'], kept as an axis or not, adds nothing to it. *)
Theorem title_from_answers (answer : string) :
  full_title (select_colours g m).1 answer
  = Some (title_entries g
            ((if spot_shown g then "VOG " else "")
             +:+ (if String.eqb answer "" then "Swatch Chart" else answer))
            colour_order).
Proof.
  unfold full_title. rewrite any_spot_fixed_shown. cbn [mbind option_bind].
  unfold title_entries.
  rewrite (foldlM_Some_foldl _
             (fun t name =>
                match shown_tint (g name) with
                | Some n => t +:+ " " +:+ name +:+ "=" +:+ pretty n +:+ "%"
                | None => t
                end)).
  - by destruct (spot_shown g).
  - intros t c Hc. by apply title_entry_shown.
Qed.

End TitleFacts.

(** * Runs of the prompts on concrete input *)

Lemma interactive_selection_is_select_colours_witness :
  exists (g : string -> tint_input) (m : string -> Z),
    (forall c, valid_tint_input (g c)) /\ (forall c, 0 <= m c <= 100) /\
    select_colours g m = select_colours default_colour_input default_median_input.
Proof.
  eapply (interactive_selection_is_select_colours decimal_int
            [""; ""; ""; ""; ""; ""; ""; ""; ""] []).
  vm_compute. reflexivity.
Defined.

Lemma read_inputs_sweeps_in_range_witness :
  exists i : inputs,
    1 <= in_step_val i <= 9 /\
    (length (in_variable_colours_data i) <= 2)%nat /\
    forall v, v ∈ in_variable_colours_data i ->
      0 <= median_tint v <= 100 /\
      start_val v = sweep_start (median_tint v) (in_step_val i) /\
      forall k, 0 <= k <= 10 ->
        0 <= start_val v + k * in_step_val i <= 100 /\
        clamped_tint (start_val v) (in_step_val i) k = start_val v + k * in_step_val i.
Proof.
  eexists.
  eapply (read_inputs_sweeps_in_range decimal_int
            ["600"; "400"; "v"; "98"; "10"; "v"; "2"; "0"; "0"; "0"; "0"; "9"] []).
  vm_compute. reflexivity.
Defined.

Lemma fill_colour_in_unit_range_witness :
  exists final_c final_m final_y final_k,
    painted_cell (docpts 444) (docpts 316) (80, 0, 30, 100)%Q 10 10 !! 0%nat
      = Some (SetFillColor final_c final_m final_y final_k) /\
    within 0 1 (final_c, final_m, final_y, final_k).
Proof.
  apply (fill_colour_in_unit_range
           (<["Cyan" := {| value := Tint 80; median := 0 |}]>
              (<["Magenta" := {| value := Tint 0; median := 0 |}]>
                 (<["Yellow" := {| value := Tint 30; median := 0 |}]>
                    (<["Black" := {| value := Tint 100; median := 0 |}]>
                       (<["Orange" := {| value := Tint 0; median := 0 |}]>
                          (<["Violet" := {| value := Tint 0; median := 0 |}]>
                             (<["Grey" := {| value := Tint 0; median := 0 |}]> ∅)))))))
           [] 3 (docpts 444) (docpts 316) 10 10).
  vm_compute. reflexivity.
Defined.

Lemma cell_colour_monotone_witness :
  exists q q' : cmyk Q,
    cell_cmyk (planned_inputs default_colour_input default_median_input 3).1
              (planned_inputs default_colour_input default_median_input 3).2 3 2 4
      = Some q /\
    cell_cmyk (planned_inputs default_colour_input default_median_input 3).1
              (planned_inputs default_colour_input default_median_input 3).2 3 7 9
      = Some q' /\
    cmyk_le q q'.
Proof.
  do 2 eexists. split; [vm_compute; reflexivity|]. split; [vm_compute; reflexivity|].
  eapply (cell_colour_monotone
            (planned_inputs default_colour_input default_median_input 3).1
            (planned_inputs default_colour_input default_median_input 3).2 3 2 7 4 9);
    [lia | lia | lia | vm_compute; reflexivity | vm_compute; reflexivity].
Defined.

Lemma get_int_input_first_accepted_witness :
  exists out', get_int_input decimal_int "step" "3" (Some 1) (Some 9)
                 ["12"; "x"; ""; "5"] [] = Some (3, ["5"], out').
Proof.
  apply get_int_input_first_accepted.
  exists ["12"; "x"], "". split; [reflexivity|]. split; [|reflexivity].
  repeat (apply Forall_cons; split; [reflexivity|]). apply Forall_nil_2.
Defined.

Lemma boxes_positive_from_71_mm_witness :
  (0 < box_width (docpts 71))%Q /\ ~ (0 < box_height (docpts 70))%Q.
Proof.
  split.
  - apply (proj1 (boxes_positive_from_71_mm 71)). lia.
  - intros H. apply (proj2 (boxes_positive_from_71_mm 70)) in H. lia.
Defined.
